(** * passkey.py: batch PDF encryption driven by a spreadsheet

    A shallow embedding of [src/passkey.py] and the properties its
    specification states about it.

    Modelling choices, fixed once for the whole development:
    - a Python [str] is the list of its code points ([str]); a literal of
      this file is read as UTF-8 by [py];
    - [str.strip] trims the code points Python counts as whitespace, in and
      beyond ASCII; [str.lower] follows CPython: ASCII letters are lowercased
      here, the capital sigma by its final-sigma rule, and what the Unicode
      character database says of the other code points (their full lowercase
      mapping, the properties Cased and Case_Ignorable) is a parameter, the
      class [PyStr.casing];
    - a spreadsheet cell is a value of the sum type [cell]; a sheet of a
      workbook is a worksheet with its rows or a chartsheet;
    - a [dict] is an association list kept in insertion order ([pydict]);
    - the file system is a finite map from path strings to file contents;
      paths are compared as written;
    - the two libraries (openpyxl, pikepdf) and the directory enumeration of
      the operating system are parameters of the driver;
    - exceptions and [sys.exit] are results of a small state-and-error monad. *)

From Stdlib Require Import ZArith NArith Ascii String List Lia Bool.
From stdpp Require Import base option list gmap strings pretty.

Open Scope string_scope.
Open Scope list_scope.

(** ** Python strings *)

(** A Python [str]: its code points, in order. *)
Definition str : Type := list N.

(** UTF-8 decoding of a byte sequence (sequences of one to four bytes). *)
Fixpoint utf8_decode (bytes : list N) : str :=
  match bytes with
  | [] => []
  | b0 :: rest =>
      if (b0 <? 128)%N then b0 :: utf8_decode rest
      else if (b0 <? 224)%N then
        match rest with
        | b1 :: rest1 => ((b0 - 192) * 64 + (b1 - 128))%N :: utf8_decode rest1
        | _ => []
        end
      else if (b0 <? 240)%N then
        match rest with
        | b1 :: b2 :: rest2 =>
            ((b0 - 224) * 4096 + (b1 - 128) * 64 + (b2 - 128))%N :: utf8_decode rest2
        | _ => []
        end
      else
        match rest with
        | b1 :: b2 :: b3 :: rest3 =>
            ((b0 - 240) * 262144 + (b1 - 128) * 4096 + (b2 - 128) * 64 + (b3 - 128))%N
            :: utf8_decode rest3
        | _ => []
        end
  end.

(** The Python string a literal of this file stands for. *)
Definition py (literal : string) : str :=
  utf8_decode (map N_of_ascii (list_ascii_of_string literal)).

Module PyStr.

(** [a == b] *)
Fixpoint eqb (a b : str) : bool :=
  match a, b with
  | [], [] => true
  | x :: a', y :: b' => (x =? y)%N && eqb a' b'
  | _, _ => false
  end.

(** Whether [str.strip] takes the code point [c] for whitespace: TAB to CR,
    FS to US, SPACE, NEL, NBSP, and the spaces of the Ogham, general
    punctuation and CJK blocks. *)
Definition is_space (c : N) : bool :=
  (((9 <=? c) && (c <=? 13)) || ((28 <=? c) && (c <=? 32))
   || (c =? 133) || (c =? 160) || (c =? 5760)
   || ((8192 <=? c) && (c <=? 8202))
   || (c =? 8232) || (c =? 8233) || (c =? 8239) || (c =? 8287)
   || (c =? 12288))%N.

Fixpoint lstrip (s : str) : str :=
  match s with
  | [] => []
  | c :: s' => if is_space c then lstrip s' else s
  end.

Fixpoint rstrip (s : str) : str :=
  match s with
  | [] => []
  | c :: s' =>
      match rstrip s' with
      | [] => if is_space c then [] else [c]
      | r => c :: r
      end
  end.

(** [s.strip()] *)
Definition strip (s : str) : str := rstrip (lstrip s).

(** What [str.lower] takes from the Unicode character database: the full
    lowercase mapping of a code point, and the properties Cased and
    Case_Ignorable. *)
Class casing : Type := {
  to_lower_full : N -> list N;
  is_cased : N -> bool;
  is_case_ignorable : N -> bool
}.

(** The lowercase of an ASCII code point. *)
Definition lower_ascii (c : N) : N :=
  if ((65 <=? c) && (c <=? 90))%N then (c + 32)%N else c.

Section Lower.

Context {ucd : casing}.

(** The first code point of [s] that is not case-ignorable. *)
Fixpoint skip_ignorable (s : str) : option N :=
  match s with
  | [] => None
  | c :: rest => if is_case_ignorable c then skip_ignorable rest else Some c
  end.

(** The lowercase of a capital sigma (U+03A3) that has [before] in front of
    it (nearest code point first) and [after] behind it: the final form
    U+03C2 when a cased letter precedes and none follows, case-ignorable code
    points aside, and U+03C3 otherwise. *)
Definition lower_sigma (before after : str) : N :=
  if match skip_ignorable before with
     | Some c => is_cased c
     | None => false
     end
     && match skip_ignorable after with
        | Some c => negb (is_cased c)
        | None => true
        end
  then 962%N else 963%N.

(** The lowercase of the code point [c] in its place. *)
Definition lower_char (before : str) (c : N) (after : str) : list N :=
  if (c =? 931)%N then [lower_sigma before after]
  else if (c <? 128)%N then [lower_ascii c]
  else to_lower_full c.

Fixpoint lower_from (before s : str) : str :=
  match s with
  | [] => []
  | c :: rest => lower_char before c rest ++ lower_from (c :: before) rest
  end.

(** [s.lower()] *)
Definition lower (s : str) : str := lower_from [] s.

End Lower.

(** [s.endswith(suf)] *)
Fixpoint endswith (s suf : str) : bool :=
  if eqb s suf then true
  else match s with
       | [] => false
       | _ :: s' => endswith s' suf
       end.

(** [s.startswith(pre)] *)
Fixpoint startswith (s pre : str) : bool :=
  match pre, s with
  | [], _ => true
  | _ :: _, [] => false
  | a :: pre', b :: s' => (a =? b)%N && startswith s' pre'
  end.

(** Truth value of a string: [bool(s)]. *)
Definition truthy (s : str) : bool := negb (eqb s []).

End PyStr.

(** ** Spreadsheet cells *)

(** A cell as [iter_rows(values_only=True)] hands it over.  [COther] stands for
    every value that is neither [None], text, an integer nor a boolean (a
    float, a date, ...) and carries the text [str] gives for it. *)
Inductive cell : Type :=
| CNone
| CStr (s : str)
| CInt (n : Z)
| CBool (b : bool)
| COther (text : str).

(** [str(v)] *)
Definition py_str (v : cell) : str :=
  match v with
  | CNone => py "None"
  | CStr s => s
  | CInt n => py (pretty n)
  | CBool true => py "True"
  | CBool false => py "False"
  | COther t => t
  end.

Definition is_None (v : cell) : bool :=
  match v with CNone => true | _ => false end.

(** [o is not None] *)
Definition is_not_None {A} (o : option A) : bool :=
  match o with Some _ => true | None => false end.

Definition row : Type := list cell.

(** ** Paths *)

(** [os.path] as [posixpath] has it: the separator is the slash (code point
    47). *)

Module Path.

(** [os.path.join(a, b)] of posixpath. *)
Definition join (a b : str) : str :=
  if PyStr.startswith b (py "/") then b
  else if PyStr.eqb a [] || PyStr.endswith a (py "/") then a ++ b
  else a ++ py "/" ++ b.

Fixpoint has_sep (p : str) : bool :=
  match p with
  | [] => false
  | c :: p' => (c =? 47)%N || has_sep p'
  end.

(** [os.path.basename(p)]: what follows the last slash. *)
Fixpoint basename (p : str) : str :=
  match p with
  | [] => []
  | _ :: p' => if has_sep p then basename p' else p
  end.

End Path.

(** ** The file system *)

Definition content : Type := list Byte.byte.

(** [os.path.isfile(path)] *)
Definition isfile (files : gmap str content) (path : str) : bool :=
  bool_decide (is_Some (files !! path)).

(** ** Exceptions *)

(** What a [ValueError] of the loader says. *)
Inductive value_error : Type :=
| SheetNotFound (sheet : str) (sheetnames : list str)
| EmptySheet.

(** The exceptions of the program, all of them subclasses of [Exception].
    [AttributeError obj attr] is raised for the attribute [attr] that an
    object of type [obj] does not have; [OtherException cls msg] is an
    exception of any other class, raised by a library or by the operating
    system. *)
Inductive exn : Type :=
| ValueError (what : value_error)
| PasswordError
| FileNotFoundError (path : str)
| FileExistsError (path : str)
| AttributeError (obj attr : string)
| OtherException (cls : string) (msg : str).

(** The class an [except] clause or a caller can tell an exception by. *)
Definition exn_class (e : exn) : string :=
  match e with
  | ValueError _ => "ValueError"
  | PasswordError => "PasswordError"
  | FileNotFoundError _ => "FileNotFoundError"
  | FileExistsError _ => "FileExistsError"
  | AttributeError _ _ => "AttributeError"
  | OtherException cls _ => cls
  end.

(** ** Workbooks *)

(** The rows of a worksheet, as [iter_rows(values_only=True)] yields them. *)
Definition worksheet : Type := list row.

(** A sheet of a workbook: a worksheet with its rows, or a chartsheet, which
    has no cells. *)
Inductive sheet_object : Type :=
| Worksheet (rows : worksheet)
| Chartsheet.

(** A workbook as openpyxl presents it: the sheets of either kind by title,
    in order, and the active sheet ([None] when the workbook has no sheet at
    all). *)
Record workbook : Type := {
  wb_sheets : list (str * sheet_object);
  wb_active : option sheet_object
}.

(** [wb.sheetnames]: the titles of all sheets, chartsheets included. *)
Definition sheetnames (wb : workbook) : list str := map fst (wb_sheets wb).

Definition is_chartsheet (sh : sheet_object) : bool :=
  match sh with
  | Chartsheet => true
  | Worksheet _ => false
  end.

(** [wb.worksheets] and [wb.chartsheets] *)
Definition worksheets (wb : workbook) : list (str * sheet_object) :=
  List.filter (fun ts => negb (is_chartsheet ts.2)) (wb_sheets wb).

Definition chartsheets (wb : workbook) : list (str * sheet_object) :=
  List.filter (fun ts => is_chartsheet ts.2) (wb_sheets wb).

(** The first of [sheets] that bears the title [key]. *)
Fixpoint find_title (sheets : list (str * sheet_object)) (key : str)
  : option sheet_object :=
  match sheets with
  | [] => None
  | (title, sh) :: rest => if PyStr.eqb title key then Some sh else find_title rest key
  end.

(** [wb[key]]: the worksheets are searched first, then the chartsheets. *)
Definition wb_getitem (wb : workbook) (key : str) : exn + sheet_object :=
  match find_title (worksheets wb ++ chartsheets wb) key with
  | Some sh => inr sh
  | None => inl (OtherException "KeyError" key)
  end.

(** [list(ws.iter_rows(values_only=True))]: only a worksheet has the
    method. *)
Definition iter_rows (ws : option sheet_object) : exn + worksheet :=
  match ws with
  | Some (Worksheet rows) => inr rows
  | Some Chartsheet => inl (AttributeError "Chartsheet" "iter_rows")
  | None => inl (AttributeError "NoneType" "iter_rows")
  end.

(** The choice of the sheet and the reading of its rows: the sheet of the
    given name when a non-empty name is given, the active one otherwise. *)
Definition select_sheet (wb : workbook) (sheet : option str) : exn + worksheet :=
  match sheet with
  | Some name =>
      if PyStr.truthy name then
        if bool_decide (name ∈ sheetnames wb) then
          match wb_getitem wb name with
          | inr ws => iter_rows (Some ws)
          | inl e => inl e
          end
        else inl (ValueError (SheetNotFound name (sheetnames wb)))
      else iter_rows (wb_active wb)
  | None => iter_rows (wb_active wb)
  end.

(** ** Dictionaries *)

(** A Python [dict] from [str] to [str]: its items in insertion order, one per
    key. *)
Definition pydict : Type := list (str * str).

(** [d.get(k)] *)
Fixpoint dict_get (k : str) (d : pydict) : option str :=
  match d with
  | [] => None
  | (k', v) :: d' => if PyStr.eqb k' k then Some v else dict_get k d'
  end.

(** [d[k] = v]: a key already present keeps its place and takes the new
    value, a new key goes to the end. *)
Fixpoint dict_set (k v : str) (d : pydict) : pydict :=
  match d with
  | [] => [(k, v)]
  | (k', v') :: d' =>
      if PyStr.eqb k' k then (k', v) :: d' else (k', v') :: dict_set k v d'
  end.

Definition dict_keys (d : pydict) : list str := map fst d.

(** ** The state of a run and its monad *)

Inductive stream : Type := Stdout | Stderr.

(** The lines the program prints, by what they report. *)
Inductive message : Type :=
| MsgExcelMissing (excel : str)
| MsgLoadFailed (e : exn)
| MsgNoRecords
| MsgSkip (excel_name : str)
| MsgOkInplace (base : str)
| MsgOkOutdir (base outdir : str)
| MsgFailPassword (base : str)
| MsgFail (base : str) (e : exn)
| MsgSummary
| MsgTotal (n : nat)
| MsgOk (n : nat)
| MsgSkipped (n : nat)
| MsgFailed (n : nat).

(** One session with the PDF library: the paths and the two passwords of
    [pikepdf.Encryption]. *)
Record enc_call : Type := {
  call_in : str;
  call_out : str;
  call_user : str;
  call_owner : str
}.

Record state : Type := {
  files : gmap str content;
  printed : list (stream * message);
  calls : list enc_call
}.

Definition set_files (f : gmap str content -> gmap str content) (s : state)
  : state :=
  {| files := f (files s); printed := printed s; calls := calls s |}.

Inductive result (A : Type) : Type :=
| Ret (a : A)
| Raise (e : exn)
| SysExit (code : Z).

Arguments Ret {A} a.
Arguments Raise {A} e.
Arguments SysExit {A} code.

Definition M (A : Type) : Type := state -> result A * state.

Definition ret {A} (a : A) : M A := fun s => (Ret a, s).

Definition bind {A B} (m : M A) (k : A -> M B) : M B :=
  fun s =>
    match m s with
    | (Ret a, s') => k a s'
    | (Raise e, s') => (Raise e, s')
    | (SysExit c, s') => (SysExit c, s')
    end.

Notation "x <- m ;; k" := (bind m (fun x => k))
  (at level 100, m at next level, right associativity).
Notation "m ;;; k" := (bind m (fun _ => k))
  (at level 100, right associativity).

Definition raise {A} (e : exn) : M A := fun s => (Raise e, s).

(** [sys.exit(code)] *)
Definition sys_exit {A} (code : Z) : M A := fun s => (SysExit code, s).

(** [try: body except Exception as e: handler e]; [SystemExit] is not an
    [Exception] and passes through. *)
Definition try_except {A} (body : M A) (handler : exn -> M A) : M A :=
  fun s =>
    match body s with
    | (Raise e, s') => handler e s'
    | r => r
    end.

Definition print (to : stream) (m : message) : M unit :=
  fun s =>
    (Ret tt, {| files := files s; printed := printed s ++ [(to, m)]; calls := calls s |}).

Definition get_files : M (gmap str content) := fun s => (Ret (files s), s).

(** A value or an exception brought into the monad. *)
Definition lift {A} (r : exn + A) : M A :=
  match r with
  | inl e => raise e
  | inr a => ret a
  end.

(** [for x in l: acc = body acc x] *)
Fixpoint for_each {A B} (body : B -> A -> M B) (l : list A) (acc : B) : M B :=
  match l with
  | [] => ret acc
  | x :: rest => acc' <- body acc x ;; for_each body rest acc'
  end.

(** The status the process ends with: the argument of [sys.exit], 1 after an
    exception nobody caught, 0 when the script runs off its end. *)
Definition exit_status {A} (r : result A) : Z :=
  match r with
  | SysExit code => code
  | Raise _ => 1
  | Ret _ => 0
  end.

(** ** Encryption and the in-place swap *)

(** What a session with the PDF library comes to: the encrypted document, or
    an exception, with what the failed session left at the output path (if
    it wrote there at all). *)
Inductive save_outcome : Type :=
| Saved (out : content)
| SaveRaised (e : exn) (left : option content).

(** [os.replace(src_tmp, dst_final)] *)
Definition safe_replace (src_tmp dst_final : str) : M unit :=
  fun s =>
    match files s !! src_tmp with
    | None => (Raise (FileNotFoundError src_tmp), s)
    | Some c => (Ret tt, set_files (fun fs => <[dst_final := c]> (delete src_tmp fs)) s)
    end.

(** [os.makedirs(path, exist_ok=True)]: directories are not part of [files];
    the call fails when a regular file is in the way. *)
Definition makedirs (path : str) : M unit :=
  fun s =>
    if isfile (files s) path then (Raise (FileExistsError path), s)
    else (Ret tt, s).

Record counters : Type := {
  total : nat;
  ok : nat;
  skipped : nat;
  failed : nat
}.

Record arguments : Type := {
  excel : str;
  sheet : option str;
  outdir : str;
  inplace : bool;
  owner : option str
}.

(** An excerpt of the character database, for the worked examples: the
    capitals of Latin-1 and of the Greek alphabet with their lowercase, the
    cased letters of Latin-1 and of the Greek alphabet, and the
    case-ignorable marks of Latin-1 (apostrophe, full stop, colon and the
    like). *)
Definition ucd_excerpt : PyStr.casing :=
  {| PyStr.to_lower_full c :=
       if ((192 <=? c) && (c <=? 222) && negb (c =? 215))%N then [(c + 32)%N]
       else if ((913 <=? c) && (c <=? 939) && negb (c =? 930))%N then [(c + 32)%N]
       else [c];
     PyStr.is_cased c :=
       (((65 <=? c) && (c <=? 90)) || ((97 <=? c) && (c <=? 122))
        || (c =? 170) || (c =? 181) || (c =? 186)
        || ((192 <=? c) && (c <=? 255) && negb (c =? 215) && negb (c =? 247))
        || ((913 <=? c) && (c <=? 974) && negb (c =? 930)))%N;
     PyStr.is_case_ignorable c :=
       bool_decide (c ∈ [39; 46; 58; 94; 96; 168; 173; 175; 180; 183; 184]%N) |}.

(** * The program *)

(** From here on the character database is a parameter. *)

Section Program.

Context {ucd : PyStr.casing}.

(** ** Header detection *)

Definition HEADER_ALIASES_filename : list str :=
  [py "filename"; py "file"; py "name"; py "pdf"; py "pdfname";
   py "文件名"; py "文件"; py "名称"].

Definition HEADER_ALIASES_password : list str :=
  [py "password"; py "pwd"; py "pass"; py "密码"].

Definition norm (s : cell) : str := PyStr.lower (PyStr.strip (py_str s)).

(** [enumerate(values)] *)
Definition enumerate {A} (l : list A) : list (nat * A) := imap pair l.

(** One turn of the loop of [detect_columns]. *)
Definition detect_step (acc : option nat * option nat) (iv : nat * str)
  : option nat * option nat :=
  let '(fn_idx, pw_idx) := acc in
  let '(i, v) := iv in
  let fn_idx := if bool_decide (v ∈ HEADER_ALIASES_filename) then Some i else fn_idx in
  let pw_idx := if bool_decide (v ∈ HEADER_ALIASES_password) then Some i else pw_idx in
  (fn_idx, pw_idx).

(** The normalised first row: [[norm(v) if v is not None else "" ...]]. *)
Definition header_values (first_row_values : row) : list str :=
  map (fun v => if is_None v then [] else norm v) first_row_values.

Definition detect_columns (first_row_values : row) : nat * nat * bool :=
  let values := header_values first_row_values in
  let '(fn_idx, pw_idx) := fold_left detect_step (enumerate values) (None, None) in
  let has_header := is_not_None fn_idx || is_not_None pw_idx in
  if negb has_header then (0, 1, false)
  else
    let fn_idx := match fn_idx with None => 0 | Some i => i end in
    let pw_idx := match pw_idx with None => 1 | Some i => i end in
    (fn_idx, pw_idx, true).

(** ** The mapping loader *)

(** [r[col] if col < len(r) else None] *)
Definition cell_at (r : row) (col : nat) : cell :=
  match r !! col with
  | Some v => v
  | None => CNone
  end.

(** [v is None or str(v).strip() == ""] *)
Definition blank (v : cell) : bool :=
  is_None v || PyStr.eqb (PyStr.strip (py_str v)) [].

(** One turn of the row loop of [load_mapping_from_excel].  The rows of
    [iter_rows(values_only=True)] are tuples, so the test [r is None] of the
    source never holds and has no branch here. *)
Definition load_row (fn_col pw_col : nat) (mapping : pydict) (r : row) : pydict :=
  let fn := cell_at r fn_col in
  let pw := cell_at r pw_col in
  if blank fn then mapping
  else if blank pw then mapping
  else
    let filename := PyStr.strip (py_str fn) in
    let password := PyStr.strip (py_str pw) in
    dict_set filename password mapping.

(** Where the data starts: row 1 under a header, row 0 otherwise. *)
Definition start_idx (has_header : bool) : nat := if has_header then 1 else 0.

(** The part of [load_mapping_from_excel] after the rows are read. *)
Definition mapping_of_rows (rows : worksheet) : exn + pydict :=
  match rows with
  | [] => inl (ValueError EmptySheet)
  | first :: _ =>
      let '(fn_col, pw_col, has_header) := detect_columns first in
      inr (fold_left (load_row fn_col pw_col) (drop (start_idx has_header) rows) [])
  end.

Section Loader.

(** [openpyxl.load_workbook(excel_path, data_only=True)]: the workbook, or
    the exception the reader raises. *)
Variable load_workbook : str -> exn + workbook.

Definition load_mapping_from_excel (excel_path : str) (sheet : option str)
  : exn + pydict :=
  match load_workbook excel_path with
  | inl e => inl e
  | inr wb =>
      match select_sheet wb sheet with
      | inl e => inl e
      | inr rows => mapping_of_rows rows
      end
  end.

End Loader.

(** ** The path resolver *)

Section Resolver.

(** The regular files and the directory enumeration the resolver sees. *)
Variable files : gmap str content.
Variable listdir : str -> list str.

(** The loop over [os.listdir(cwd)], left at the first hit. *)
Fixpoint scan_listing (cwd target_lower : str) (entries : list str)
  : option str :=
  match entries with
  | [] => None
  | f :: rest =>
      if PyStr.eqb (PyStr.lower f) target_lower && isfile files (Path.join cwd f)
      then Some (Path.join cwd f)
      else scan_listing cwd target_lower rest
  end.

(** What follows the choice of [base]: the direct check, then the scan. *)
Definition resolve_base (cwd base : str) : option str :=
  let direct := Path.join cwd base in
  if isfile files direct then Some direct
  else
    let target_lower := PyStr.lower base in
    scan_listing cwd target_lower (listdir cwd).

Definition resolve_pdf_path (cwd filename_from_excel : str) : option str :=
  let cand := PyStr.strip filename_from_excel in
  if PyStr.endswith (PyStr.lower cand) (py ".pdf") then
    let path := Path.join cwd cand in
    if isfile files path then Some path
    else resolve_base cwd cand
  else resolve_base cwd (cand ++ py ".pdf").

(** The resolver in the words of the specification (4.2, steps 1 to 5). *)
Definition resolve_spec (dir name : str) : option str :=
  let name := PyStr.strip name in
  let has_ext := PyStr.endswith (PyStr.lower name) (py ".pdf") in
  if has_ext && isfile files (Path.join dir name) then Some (Path.join dir name)
  else
    let base := if has_ext then name else name ++ py ".pdf" in
    if isfile files (Path.join dir base) then Some (Path.join dir base)
    else
      match
        List.find
          (fun f => PyStr.eqb (PyStr.lower f) (PyStr.lower base)
                    && isfile files (Path.join dir f))
          (listdir dir)
      with
      | Some f => Some (Path.join dir f)
      | None => None
      end.

End Resolver.

(** ** The batch driver *)

Section Driver.

(** [os.listdir], as a function of the files present. *)
Variable listdir : gmap str content -> str -> list str.

(** The PDF library: opening the document with these bytes and saving it
    under [Encryption(user, owner, R=6)]. *)
Variable pikepdf_save : content -> str -> str -> save_outcome.

(** The spreadsheet reader, as a function of the files present. *)
Variable load_workbook : gmap str content -> str -> exn + workbook.

(** A session with the PDF library, [pikepdf.Pdf.open(in_path)] followed by
    [pdf.save(out_path, encryption=Encryption(user=user, owner=owner, R=6))].
    The library notes in [calls] the session it was asked for, with the
    arguments it was given; it reads the document at [in_path] and writes
    nowhere but at [out_path]. *)
Definition pikepdf_open_save (in_path out_path user owner : str) : M unit :=
  fun s =>
    let s :=
      {| files := files s; printed := printed s;
         calls := calls s ++ [{| call_in := in_path; call_out := out_path;
                                 call_user := user; call_owner := owner |}] |} in
    match files s !! in_path with
    | None => (Raise (FileNotFoundError in_path), s)
    | Some doc =>
        match pikepdf_save doc user owner with
        | Saved out => (Ret tt, set_files (fun fs => <[out_path := out]> fs) s)
        | SaveRaised e None => (Raise e, s)
        | SaveRaised e (Some part) =>
            (Raise e, set_files (fun fs => <[out_path := part]> fs) s)
        end
    end.

(** [encrypt_pdf]: the owner password defaults to the user password. *)
Definition encrypt_pdf (in_path out_path user_password : str)
    (owner_password : option str) : M unit :=
  let owner_pw :=
    match owner_password with
    | Some o => o
    | None => user_password
    end in
  pikepdf_open_save in_path out_path user_password owner_pw.

Definition resolve (cwd excel_name : str) : M (option str) :=
  fs <- get_files ;;
  ret (resolve_pdf_path fs (listdir fs) cwd excel_name).

(** The path [in_pdf] when it passes [if not in_pdf]: neither [None] nor the
    empty string. *)
Definition found (in_pdf : option str) : option str :=
  match in_pdf with
  | Some p => if PyStr.truthy p then Some p else None
  | None => None
  end.

(** The [try] block of the loop: everything up to [ok += 1]. *)
Definition attempt (args : arguments) (outdir_path in_pdf password : str)
    (c : counters) : M counters :=
  (if inplace args then
     let tmp_path := in_pdf ++ py ".tmp_encrypt" in
     encrypt_pdf in_pdf tmp_path password (owner args) ;;;
     safe_replace tmp_path in_pdf ;;;
     print Stdout (MsgOkInplace (Path.basename in_pdf))
   else
     let out_path := Path.join outdir_path (Path.basename in_pdf) in
     encrypt_pdf in_pdf out_path password (owner args) ;;;
     print Stdout (MsgOkOutdir (Path.basename in_pdf) (outdir args))) ;;;
  ret {| total := total c; ok := ok c + 1; skipped := skipped c; failed := failed c |}.

(** The two [except] clauses of the loop.  The class
    [pikepdf._qpdf.PasswordError] the first one names is taken to exist, as
    the source takes it. *)
Definition on_failure (in_pdf : str) (c : counters) (e : exn) : M counters :=
  match e with
  | PasswordError =>
      print Stderr (MsgFailPassword (Path.basename in_pdf)) ;;;
      ret {| total := total c; ok := ok c; skipped := skipped c; failed := failed c + 1 |}
  | _ =>
      print Stderr (MsgFail (Path.basename in_pdf) e) ;;;
      ret {| total := total c; ok := ok c; skipped := skipped c; failed := failed c + 1 |}
  end.

(** One turn of the loop over [mapping.items()]. *)
Definition process_entry (cwd : str) (args : arguments) (outdir_path : str)
    (c : counters) (item : str * str) : M counters :=
  let '(excel_name, password) := item in
  let c := {| total := total c + 1; ok := ok c; skipped := skipped c; failed := failed c |} in
  in_pdf <- resolve cwd excel_name ;;
  match found in_pdf with
  | None =>
      print Stdout (MsgSkip excel_name) ;;;
      ret {| total := total c; ok := ok c; skipped := skipped c + 1; failed := failed c |}
  | Some path =>
      try_except (attempt args outdir_path path password c) (on_failure path c)
  end.

Definition zero : counters := {| total := 0; ok := 0; skipped := 0; failed := 0 |}.

Definition batch (cwd : str) (args : arguments) (outdir_path : str)
    (mapping : pydict) : M counters :=
  for_each (process_entry cwd args outdir_path) mapping zero.

Definition summary (c : counters) : M unit :=
  print Stdout MsgSummary ;;;
  print Stdout (MsgTotal (total c)) ;;;
  print Stdout (MsgOk (ok c)) ;;;
  print Stdout (MsgSkipped (skipped c)) ;;;
  print Stdout (MsgFailed (failed c)).

(** [main], from the parsed arguments on; [cwd] is [os.getcwd()]. *)
Definition main (cwd : str) (args : arguments) : M unit :=
  fs <- get_files ;;
  if negb (isfile fs (excel args)) then
    print Stderr (MsgExcelMissing (excel args)) ;;;
    sys_exit 2
  else
    mapping <-
      try_except
        (lift (load_mapping_from_excel (load_workbook fs) (excel args) (sheet args)))
        (fun e => print Stderr (MsgLoadFailed e) ;;; sys_exit 2) ;;
    match mapping with
    | [] =>
        print Stderr MsgNoRecords ;;;
        sys_exit 2
    | _ :: _ =>
        let outdir_path := Path.join cwd (outdir args) in
        (if negb (inplace args) then makedirs outdir_path else ret tt) ;;;
        c <- batch cwd args outdir_path mapping ;;
        summary c ;;;
        sys_exit (if Nat.eqb (failed c) 0 then 0 else 1)
    end.

End Driver.

(** ** Predicates of the specification *)

(** A normalised header cell that is one of the recognised names. *)
Definition is_alias (v : str) : Prop :=
  v ∈ HEADER_ALIASES_filename ∨ v ∈ HEADER_ALIASES_password.

(** [col] is the column a header scan settles on for [aliases]: the last
    column of [values] holding one of them, or [dflt] when none does. *)
Definition matched_col (aliases values : list str) (dflt col : nat) : Prop :=
  (∃ v, values !! col = Some v ∧ v ∈ aliases ∧
        ∀ j w, col < j → values !! j = Some w → w ∉ aliases)
  ∨ ((∀ w, w ∈ values → w ∉ aliases) ∧ col = dflt).

(** What the scan knows after some cells: the last hit, if any. *)
Definition scan_inv (aliases values : list str) (idx : option nat) : Prop :=
  match idx with
  | Some i => ∃ v, values !! i = Some v ∧ v ∈ aliases ∧
                   ∀ j w, i < j → values !! j = Some w → w ∉ aliases
  | None => ∀ w, w ∈ values → w ∉ aliases
  end.

(** The target column [col] of row [r] has nothing to offer: the row is too
    short, the cell is [None], or its text is empty once trimmed. *)
Definition target_missing (r : row) (col : nat) : Prop :=
  (length r <= col)%nat
  ∨ r !! col = Some CNone
  ∨ ∃ v, r !! col = Some v ∧ PyStr.strip (py_str v) = [].

(** The entry a data row declares, trimmed; nothing when a target column is
    missing. *)
Definition row_entry (fn_col pw_col : nat) (r : row) : option (str * str) :=
  if blank (cell_at r fn_col) || blank (cell_at r pw_col) then None
  else Some (PyStr.strip (py_str (cell_at r fn_col)),
             PyStr.strip (py_str (cell_at r pw_col))).

(** The entries the data rows declare, in order, rows that declare nothing
    left out. *)
Fixpoint declared (fn_col pw_col : nat) (data : list row) : list (str * str) :=
  match data with
  | [] => []
  | r :: rest =>
      match row_entry fn_col pw_col r with
      | Some e => e :: declared fn_col pw_col rest
      | None => declared fn_col pw_col rest
      end
  end.

(** The password of the last of [entries] that declares [k]. *)
Fixpoint last_declared (k : str) (entries : list (str * str))
  : option str :=
  match entries with
  | [] => None
  | (k', v) :: rest =>
      match last_declared k rest with
      | Some v' => Some v'
      | None => if PyStr.eqb k' k then Some v else None
      end
  end.

(** A mapping entry as the data model wants it: both parts trimmed and not
    empty. *)
Definition valid_entry (e : str * str) : Prop :=
  e.1 ≠ [] ∧ PyStr.strip e.1 = e.1 ∧ e.2 ≠ [] ∧ PyStr.strip e.2 = e.2.

(** The owner password the specification asks for: the override when one
    was supplied, the entry's own password otherwise. *)
Definition owner_rule (override : option str) (password : str) : str :=
  match override with
  | Some o => o
  | None => password
  end.

(** A name that, lowercased, ends in the letter f (code point 102), as every
    name does that ends in [".pdf"] in whatever letter case. *)
Definition ends_f (s : str) : Prop :=
  last (PyStr.lower s) = Some 102%N.

(** The base name the resolver looks for: the trimmed filename, with [".pdf"]
    appended when it does not end in it in some letter case. *)
Definition base_name (name : str) : str :=
  let cand := PyStr.strip name in
  if PyStr.endswith (PyStr.lower cand) (py ".pdf") then cand else cand ++ py ".pdf".

(** In the run over [mapping] that starts in state [s], some entry resolved
    to [p], its encryption came through, and its temporary file was renamed
    over [p]. *)
Inductive renamed_over
    (listdir : gmap str content -> str -> list str)
    (pikepdf_save : content -> str -> str -> save_outcome)
    (cwd : str) (args : arguments) (outdir_path : str) (p : str)
  : pydict -> state -> Prop :=
| renamed_here name password rest s doc out :
    found (resolve_pdf_path (files s) (listdir (files s)) cwd name) = Some p →
    files s !! p = Some doc →
    pikepdf_save doc password (owner_rule (owner args) password) = Saved out →
    renamed_over listdir pikepdf_save cwd args outdir_path p
      ((name, password) :: rest) s
| renamed_later item rest s c c' s' :
    process_entry listdir pikepdf_save cwd args outdir_path c item s = (Ret c', s') →
    renamed_over listdir pikepdf_save cwd args outdir_path p rest s' →
    renamed_over listdir pikepdf_save cwd args outdir_path p (item :: rest) s.

(** Where the entry's document is written: the temporary sibling in place,
    the file of the same name in the output directory otherwise. *)
Definition out_path_of (args : arguments) (outdir_path in_pdf : str) : str :=
  if inplace args then in_pdf ++ py ".tmp_encrypt"
  else Path.join outdir_path (Path.basename in_pdf).

(** The session the specification asks for on behalf of an entry. *)
Definition call_of (args : arguments) (outdir_path in_pdf password : str)
  : enc_call :=
  {| call_in := in_pdf; call_out := out_path_of args outdir_path in_pdf;
     call_user := password; call_owner := owner_rule (owner args) password |}.

(** The line a failed entry is reported with. *)
Definition failure_line (in_pdf : str) (e : exn) : stream * message :=
  match e with
  | PasswordError => (Stderr, MsgFailPassword (Path.basename in_pdf))
  | _ => (Stderr, MsgFail (Path.basename in_pdf) e)
  end.

(** The five lines of the final summary. *)
Definition summary_lines (c : counters) : list (stream * message) :=
  [(Stdout, MsgSummary); (Stdout, MsgTotal (total c)); (Stdout, MsgOk (ok c));
   (Stdout, MsgSkipped (skipped c)); (Stdout, MsgFailed (failed c))].

(** The counters after one more entry that was skipped, succeeded, failed. *)
Definition count_skipped (c : counters) : counters :=
  {| total := total c + 1; ok := ok c; skipped := skipped c + 1; failed := failed c |}.

Definition count_ok (c : counters) : counters :=
  {| total := total c + 1; ok := ok c + 1; skipped := skipped c; failed := failed c |}.

Definition count_failed (c : counters) : counters :=
  {| total := total c + 1; ok := ok c; skipped := skipped c; failed := failed c + 1 |}.

(** A workbook whose only sheet is not the one asked for, and one whose
    active sheet has no rows. *)
Definition wb_other_sheet : workbook :=
  {| wb_sheets := [(py "Sheet1", Worksheet [[CStr (py "a.pdf"); CStr (py "secret")]])];
     wb_active := Some (Worksheet [[CStr (py "a.pdf"); CStr (py "secret")]]) |}.

Definition wb_empty_sheet : workbook :=
  {| wb_sheets := [(py "Sheet1", Worksheet [])]; wb_active := Some (Worksheet []) |}.

(** ** A small working directory *)

(** One PDF and the spreadsheet, in [/w]. *)
Definition sample_files : gmap str content :=
  <[(py "/w/a.pdf") := [Byte.x25; Byte.x50; Byte.x44; Byte.x46]]>
    (<[(py "/w/p.xlsx") := [Byte.x50; Byte.x4b]]> ∅).

Definition sample_listdir (fs : gmap str content) (dir : str) : list str :=
  [py "p.xlsx"; py "sub"; py "a.pdf"].

(** A PDF library that finds every document locked, and one that encrypts
    by putting a mark in front. *)
Definition sample_locked (doc : content) (user owner : str) : save_outcome :=
  SaveRaised PasswordError (Some [Byte.x00]).

Definition sample_save (doc : content) (user owner : str) : save_outcome :=
  Saved (Byte.xff :: doc).

(** A PDF library that takes the document only under the passwords
    [secret] (user) and [master] (owner), so that what it answers tells
    which passwords it was given. *)
Definition sample_keyed (doc : content) (user owner : str) : save_outcome :=
  if PyStr.eqb user (py "secret") && PyStr.eqb owner (py "master")
  then Saved (Byte.xff :: doc)
  else SaveRaised PasswordError None.

Definition sample_rows : worksheet :=
  [[CStr (py "File"); CStr (py "Password")];
   [CStr (py "a"); CStr (py "secret")];
   [CStr (py "missing"); CStr (py "pw")]].

Definition sample_workbook : workbook :=
  {| wb_sheets := [(py "Sheet1", Worksheet sample_rows)];
     wb_active := Some (Worksheet sample_rows) |}.

(** A workbook that opens on a chartsheet, with a worksheet behind it. *)
Definition wb_chart_first : workbook :=
  {| wb_sheets := [(py "Chart1", Chartsheet); (py "Data", Worksheet sample_rows)];
     wb_active := Some Chartsheet |}.

Definition sample_reader (fs : gmap str content) (path : str)
  : exn + workbook := inr sample_workbook.

Definition sample_args : arguments :=
  {| excel := py "/w/p.xlsx"; sheet := None; outdir := py "protected";
     inplace := true; owner := None |}.

Definition sample_state : state :=
  {| files := sample_files; printed := []; calls := [] |}.

(** The same run with an owner password given on the command line. *)
Definition sample_args_owner : arguments :=
  {| excel := py "/w/p.xlsx"; sheet := None; outdir := py "protected";
     inplace := true; owner := Some (py "master") |}.

(** The same run into the output directory. *)
Definition sample_args_outdir : arguments :=
  {| excel := py "/w/p.xlsx"; sheet := None; outdir := py "protected";
     inplace := false; owner := None |}.

(** A directory with names beyond ASCII. *)
Definition unicode_files : gmap str content :=
  <[py "/w/RÉSUMÉ.PDF" := [Byte.x25; Byte.x50]]>
    (<[py "/w/ασ.pdf" := [Byte.x25; Byte.x51]]> ∅).

Definition unicode_listdir (dir : str) : list str :=
  [py "RÉSUMÉ.PDF"; py "ασ.pdf"].

(** The directory of the scenario of the specification: [INVOICE.PDF] and
    [report.pdf]. *)
Definition scenario_files : gmap str content :=
  <[(py "/w/INVOICE.PDF") := [Byte.x25; Byte.x50]]>
    (<[(py "/w/report.pdf") := [Byte.x25; Byte.x51]]> ∅).

Definition scenario_listdir (dir : str) : list str :=
  [py "notes.txt"; py "INVOICE.PDF"; py "report.pdf"].

(** The names of [names] in the order of their first occurrence, those of
    [seen] left out. *)
Fixpoint first_seen (seen names : list str) : list str :=
  match names with
  | [] => []
  | k :: rest =>
      if bool_decide (k ∈ seen) then first_seen seen rest
      else k :: first_seen (seen ++ [k]) rest
  end.

(** A line printed on the error stream. *)
Definition is_stderr (line : stream * message) : bool :=
  match line.1 with
  | Stderr => true
  | Stdout => false
  end.

(** Text made of ASCII code points only. *)
Definition ascii_text (s : str) : Prop := Forall (fun c => (c < 128)%N) s.

(** The sheet name asked for is not among the sheets of the workbook. *)
Definition sheet_missing (wb : workbook) (sheet : option str) : Prop :=
  ∃ name, sheet = Some name ∧ name ≠ [] ∧ name ∉ sheetnames wb.

(** The sheet the loader turns to: the first worksheet, or else chartsheet,
    of the name asked for, and the active sheet when no name (or an empty
    one) was given. *)
Definition chosen_sheet (wb : workbook) (sheet : option str) : option sheet_object :=
  match sheet with
  | Some name =>
      if PyStr.truthy name then find_title (worksheets wb ++ chartsheets wb) name
      else wb_active wb
  | None => wb_active wb
  end.

(** * Properties *)

(** ** Strings *)

Lemma str_eqb_spec (a b : str) : reflect (a = b) (PyStr.eqb a b).
Proof.
  revert b. induction a as [|x a IH]; intros [|y b]; simpl; try by constructor.
  destruct (N.eqb_spec x y) as [->|Hne]; simpl.
  - destruct (IH b) as [->|Hne]; constructor; congruence.
  - constructor. congruence.
Qed.

Lemma str_eqb_refl (a : str) : PyStr.eqb a a = true.
Proof. by destruct (str_eqb_spec a a). Qed.

Lemma str_eqb_eq (a b : str) : PyStr.eqb a b = true ↔ a = b.
Proof. by destruct (str_eqb_spec a b). Qed.

Lemma endswith_app_inv (s suf : str) :
  PyStr.endswith s suf = true → ∃ pre, s = pre ++ suf.
Proof.
  induction s as [|c s IH].
  - destruct suf; [by exists []|discriminate].
  - change (PyStr.endswith (c :: s) suf)
      with (if PyStr.eqb (c :: s) suf then true else PyStr.endswith s suf).
    destruct (str_eqb_spec (c :: s) suf) as [Heq|Hne].
    + intros _. exists []. by rewrite Heq.
    + intros H. destruct (IH H) as [pre ->]. by exists (c :: pre).
Qed.

Lemma endswith_app (x suf : str) : PyStr.endswith (x ++ suf) suf = true.
Proof.
  induction x as [|c x IH].
  - destruct suf as [|d suf]; [done|].
    change (PyStr.endswith ([] ++ (d :: suf)) (d :: suf))
      with (if PyStr.eqb (d :: suf) (d :: suf) then true
            else PyStr.endswith suf (d :: suf)).
    by rewrite str_eqb_refl.
  - change (PyStr.endswith ((c :: x) ++ suf) suf)
      with (if PyStr.eqb (c :: (x ++ suf)) suf then true
            else PyStr.endswith (x ++ suf) suf).
    rewrite IH. by destruct (PyStr.eqb _ _).
Qed.

Lemma last_app_nonempty (a b : str) : b ≠ [] → last (a ++ b) = last b.
Proof.
  intros Hb. rewrite last_app. destruct (last b) eqn:E; [done|].
  apply last_None in E. done.
Qed.

Lemma endswith_last (s suf : str) :
  PyStr.endswith s suf = true → suf ≠ [] → last s = last suf.
Proof.
  intros [pre ->]%endswith_app_inv Hsuf. by apply last_app_nonempty.
Qed.

(** ** Lowercasing *)

(** An ASCII code point is lowercased by itself, whatever stands around
    it. *)
Lemma lower_char_ascii (before after : str) (c : N) :
  (c < 128)%N → PyStr.lower_char before c after = [PyStr.lower_ascii c].
Proof.
  intros Hc. unfold PyStr.lower_char.
  destruct (N.eqb_spec c 931) as [->|_]; [lia|].
  destruct (N.ltb_spec c 128); [done|lia].
Qed.

Lemma lower_from_ascii (before t : str) :
  Forall (fun c => (c < 128)%N) t →
  PyStr.lower_from before t = map PyStr.lower_ascii t.
Proof.
  intros Ht. revert before. induction Ht as [|c t Hc _ IH]; intros before; [done|].
  cbn [PyStr.lower_from map]. by rewrite lower_char_ascii, IH.
Qed.

Lemma lower_from_app (before a t : str) :
  ∃ x before', PyStr.lower_from before (a ++ t) = x ++ PyStr.lower_from before' t.
Proof.
  revert before. induction a as [|c a IH]; intros before.
  - by exists [], before.
  - destruct (IH (c :: before)) as (x & before' & Hx).
    exists (PyStr.lower_char before c (a ++ t) ++ x), before'.
    change ((c :: a) ++ t) with (c :: (a ++ t)).
    cbn [PyStr.lower_from]. by rewrite Hx, app_assoc.
Qed.

(** A tail of ASCII code points is lowercased in place: the lowercase of
    [a ++ t] ends in the lowercase of [t]. *)
Lemma lower_app_ascii (a t : str) :
  Forall (fun c => (c < 128)%N) t →
  ∃ x, PyStr.lower (a ++ t) = x ++ map PyStr.lower_ascii t.
Proof.
  intros Ht. unfold PyStr.lower.
  destruct (lower_from_app [] a t) as (x & before' & ->).
  exists x. by rewrite lower_from_ascii.
Qed.

Lemma pdf_is_ascii : Forall (fun c => (c < 128)%N) (py ".pdf").
Proof. repeat constructor. Qed.

(** With [".pdf"] appended a name ends in [".pdf"] once lowercased. *)
Lemma endswith_lower_pdf (a : str) :
  PyStr.endswith (PyStr.lower (a ++ py ".pdf")) (py ".pdf") = true.
Proof.
  destruct (lower_app_ascii a (py ".pdf") pdf_is_ascii) as [x ->].
  apply endswith_app.
Qed.

(** The last code point of a string, when it is ASCII, is lowercased by
    itself. *)
Lemma last_lower_ascii (s : str) (c : N) :
  last s = Some c → (c < 128)%N →
  last (PyStr.lower s) = Some (PyStr.lower_ascii c).
Proof.
  intros [a ->]%last_Some Hc.
  destruct (lower_app_ascii a [c]) as [x ->]; [by constructor|].
  simpl. by rewrite last_snoc.
Qed.

(** ** Header detection *)

Lemma enumerate_snoc {A} (l : list A) (x : A) :
  enumerate (l ++ [x]) = enumerate l ++ [(length l, x)].
Proof.
  unfold enumerate. rewrite imap_app. simpl. by rewrite Nat.add_0_r.
Qed.

Lemma scan_inv_snoc_hit aliases values v :
  v ∈ aliases → scan_inv aliases (values ++ [v]) (Some (length values)).
Proof.
  intros Hv. exists v. split; [|split; [done|]].
  - by rewrite lookup_app_r, Nat.sub_diag.
  - intros j w Hj Hw. apply lookup_lt_Some in Hw.
    rewrite length_app in Hw. simpl in Hw. lia.
Qed.

Lemma scan_inv_snoc_miss aliases values v idx :
  v ∉ aliases → scan_inv aliases values idx → scan_inv aliases (values ++ [v]) idx.
Proof.
  intros Hv. destruct idx as [i|]; simpl.
  - intros (u & Hu & Hin & Hlast). exists u.
    split; [by apply lookup_app_l_Some|]. split; [done|].
    intros j w Hj Hw. apply lookup_app_Some in Hw as [Hw|[_ Hw]].
    + by eapply Hlast.
    + apply list_lookup_singleton_Some in Hw as [_ <-]. done.
  - intros Hall w Hw. apply elem_of_app in Hw as [Hw|Hw]; [by apply Hall|].
    apply list_elem_of_singleton in Hw. by subst.
Qed.

Lemma detect_loop_inv (values : list str) :
  scan_inv HEADER_ALIASES_filename values
    (fst (fold_left detect_step (enumerate values) (None, None))) ∧
  scan_inv HEADER_ALIASES_password values
    (snd (fold_left detect_step (enumerate values) (None, None))).
Proof.
  induction values as [|v values IH] using rev_ind.
  - split; intros w Hw; by apply elem_of_nil in Hw.
  - rewrite enumerate_snoc, fold_left_app. simpl.
    destruct (fold_left detect_step (enumerate values) (None, None)) as [fn pw].
    destruct IH as [IHfn IHpw]. simpl in *. split.
    + case_bool_decide; simpl.
      * by apply scan_inv_snoc_hit.
      * by apply scan_inv_snoc_miss.
    + case_bool_decide; simpl.
      * by apply scan_inv_snoc_hit.
      * by apply scan_inv_snoc_miss.
Qed.

Lemma scan_inv_matched aliases values dflt idx :
  scan_inv aliases values idx →
  matched_col aliases values dflt (match idx with None => dflt | Some i => i end).
Proof.
  destruct idx as [i|]; simpl; intros H; [by left | by right].
Qed.

(** C2: the first row decides the columns.  Its cells are normalised (text
    trimmed and lowercased, [None] read as the empty string); when a
    normalised cell is a filename or password alias the row is a header, each
    column index is the matched one, a filename index that is missing is 0
    and a password index that is missing is 1, and the data starts at row 1;
    when no cell is an alias the answer is (0, 1, no header) and the data
    starts at row 0. *)
Theorem detect_columns_header_rule (first : row) (rest : list row) :
  let values := header_values first in
  (∀ i v, first !! i = Some v →
     values !! i = Some (if is_None v then [] else PyStr.lower (PyStr.strip (py_str v))))
  ∧ ((∃ v, v ∈ values ∧ is_alias v) →
     ∃ fn pw,
       detect_columns first = (fn, pw, true)
       ∧ matched_col HEADER_ALIASES_filename values 0 fn
       ∧ matched_col HEADER_ALIASES_password values 1 pw
       ∧ mapping_of_rows (first :: rest) = inr (fold_left (load_row fn pw) rest []))
  ∧ ((∀ v, v ∈ values → ¬ is_alias v) →
     detect_columns first = (0, 1, false)
     ∧ mapping_of_rows (first :: rest)
       = inr (fold_left (load_row 0 1) (first :: rest) [])).
Proof.
  intros values. split; [|split].
  - unfold values, header_values. clear values.
    induction first as [|c first IH]; intros [|i] v Hi; simplify_eq/=; eauto.
  - intros (v & Hv & Halias).
    destruct (detect_loop_inv values) as [Hfn Hpw].
    unfold mapping_of_rows, detect_columns. fold values.
    destruct (fold_left detect_step (enumerate values) (None, None)) as [fn pw].
    simpl in Hfn, Hpw.
    destruct fn as [i|], pw as [j|]; simpl.
    + exists i, j. repeat split; try done.
      * by apply (scan_inv_matched _ _ 0 (Some i)).
      * by apply (scan_inv_matched _ _ 1 (Some j)).
    + exists i, 1. repeat split; try done.
      * by apply (scan_inv_matched _ _ 0 (Some i)).
      * by apply (scan_inv_matched _ _ 1 None).
    + exists 0, j. repeat split; try done.
      * by apply (scan_inv_matched _ _ 0 None).
      * by apply (scan_inv_matched _ _ 1 (Some j)).
    + exfalso. destruct Halias as [H|H]; [by apply (Hfn v)|by apply (Hpw v)].
  - intros Hnone.
    destruct (detect_loop_inv values) as [Hfn Hpw].
    unfold mapping_of_rows, detect_columns. fold values.
    destruct (fold_left detect_step (enumerate values) (None, None)) as [fn pw].
    simpl in Hfn, Hpw.
    assert (fn = None) as ->.
    { destruct fn as [i|]; [|done]. destruct Hfn as (v & Hv & Hin & _).
      exfalso. apply (Hnone v); [by eapply list_elem_of_lookup_2|by left]. }
    assert (pw = None) as ->.
    { destruct pw as [i|]; [|done]. destruct Hpw as (v & Hv & Hin & _).
      exfalso. apply (Hnone v); [by eapply list_elem_of_lookup_2|by right]. }
    done.
Qed.

(** ** The path resolver *)

Section ResolverFacts.

Variable files : gmap str content.
Variable listdir : str -> list str.

Lemma scan_listing_find cwd base entries :
  scan_listing files cwd (PyStr.lower base) entries =
  match
    List.find
      (fun f => PyStr.eqb (PyStr.lower f) (PyStr.lower base)
                && isfile files (Path.join cwd f))
      entries
  with
  | Some f => Some (Path.join cwd f)
  | None => None
  end.
Proof.
  induction entries as [|f rest IH]; simpl; [done|].
  destruct (PyStr.eqb (PyStr.lower f) (PyStr.lower base)
            && isfile files (Path.join cwd f)); [done|apply IH].
Qed.

Lemma scan_listing_None cwd target entries :
  scan_listing files cwd target entries = None ↔
  ∀ f, f ∈ entries → PyStr.lower f = target → isfile files (Path.join cwd f) = false.
Proof.
  induction entries as [|f rest IH]; simpl.
  - split; [|done]. intros _ f Hf. by apply elem_of_nil in Hf.
  - destruct (str_eqb_spec (PyStr.lower f) target) as [Heq|Hne]; simpl.
    + destruct (isfile files (Path.join cwd f)) eqn:Hf.
      * split; [done|]. intros H. specialize (H f (list_elem_of_here _ _) Heq).
        congruence.
      * rewrite IH. split.
        -- intros H g Hg Hlow. apply elem_of_cons in Hg as [->|Hg]; [done|by apply H].
        -- intros H g Hg. apply H. by apply list_elem_of_further.
    + rewrite IH. split.
      * intros H g Hg Hlow. apply elem_of_cons in Hg as [->|Hg]; [done|by apply H].
      * intros H g Hg. apply H. by apply list_elem_of_further.
Qed.

Lemma scan_listing_isfile cwd target entries p :
  scan_listing files cwd target entries = Some p → isfile files p = true.
Proof.
  induction entries as [|f rest IH]; simpl; [done|].
  destruct (PyStr.eqb (PyStr.lower f) target) eqn:E1; simpl; [|done].
  destruct (isfile files (Path.join cwd f)) eqn:E2; [|done].
  intros [= <-]. done.
Qed.

(** A path the resolver returns is a regular file. *)
Lemma resolve_pdf_path_isfile cwd name p :
  resolve_pdf_path files listdir cwd name = Some p → isfile files p = true.
Proof.
  unfold resolve_pdf_path, resolve_base.
  repeat match goal with
         | |- context [if ?b then _ else _] => destruct b eqn:?
         end;
    try (intros [= <-]; done); apply scan_listing_isfile.
Qed.

(** C3: the resolver follows the steps of the specification: trim; with the
    extension present (in any case) an exact check of dir/name first; then
    the exact check of dir/base, where base has [".pdf"] appended when the
    extension was absent; then the first entry of the listing that is a
    regular file and equals base once both are lowercased.  It answers
    [None], and does not fail, exactly when neither the exact check nor any
    entry of the listing matches. *)
Theorem resolve_pdf_path_follows_spec (cwd name : str) :
  resolve_pdf_path files listdir cwd name = resolve_spec files listdir cwd name
  ∧ (let cand := PyStr.strip name in
     let base :=
       if PyStr.endswith (PyStr.lower cand) (py ".pdf") then cand else cand ++ py ".pdf" in
     resolve_pdf_path files listdir cwd name = None ↔
     isfile files (Path.join cwd base) = false
     ∧ ∀ f, f ∈ listdir cwd → PyStr.lower f = PyStr.lower base →
            isfile files (Path.join cwd f) = false).
Proof.
  split.
  - unfold resolve_pdf_path, resolve_spec, resolve_base.
    destruct (PyStr.endswith (PyStr.lower (PyStr.strip name)) (py ".pdf")); simpl.
    + destruct (isfile files (Path.join cwd (PyStr.strip name))); [done|].
      apply scan_listing_find.
    + destruct (isfile files (Path.join cwd (PyStr.strip name ++ py ".pdf"))); [done|].
      apply scan_listing_find.
  - simpl. unfold resolve_pdf_path, resolve_base.
    destruct (PyStr.endswith (PyStr.lower (PyStr.strip name)) (py ".pdf")).
    + destruct (isfile files (Path.join cwd (PyStr.strip name))) eqn:E.
      * split; [done|]. intros [? _]. congruence.
      * rewrite scan_listing_None. tauto.
    + destruct (isfile files (Path.join cwd (PyStr.strip name ++ py ".pdf"))) eqn:E.
      * split; [done|]. intros [? _]. congruence.
      * rewrite scan_listing_None. tauto.
Qed.

End ResolverFacts.

(** ** Trimming *)

Lemma lstrip_length (s : str) :
  (length (PyStr.lstrip s) <= length s)%nat.
Proof.
  induction s as [|c s IH]; simpl; [done|].
  destruct (PyStr.is_space c); simpl; lia.
Qed.

Lemma lstrip_head (c : N) (s : str) :
  PyStr.lstrip (c :: s) = (c :: s) → PyStr.is_space c = false.
Proof.
  simpl. destruct (PyStr.is_space c); [|done].
  intros H. pose proof (lstrip_length s) as Hlen. rewrite H in Hlen.
  simpl in Hlen. lia.
Qed.

Lemma lstrip_idem (s : str) : PyStr.lstrip (PyStr.lstrip s) = PyStr.lstrip s.
Proof.
  induction s as [|c s IH]; simpl; [done|].
  destruct (PyStr.is_space c) eqn:E; [done|]. simpl. by rewrite E.
Qed.

Lemma rstrip_idem (s : str) : PyStr.rstrip (PyStr.rstrip s) = PyStr.rstrip s.
Proof.
  induction s as [|c s IH]; simpl; [done|].
  destruct (PyStr.rstrip s) as [|a r] eqn:E.
  - destruct (PyStr.is_space c) eqn:Ec; simpl; [done|]. by rewrite Ec.
  - change (PyStr.rstrip ((c :: (a :: r)))) with
      (match PyStr.rstrip (a :: r) with
       | [] => if PyStr.is_space c then [] else [c]
       | r' => (c :: r')
       end).
    rewrite IH. done.
Qed.

Lemma lstrip_rstrip_fixed (s : str) :
  PyStr.lstrip s = s → PyStr.lstrip (PyStr.rstrip s) = PyStr.rstrip s.
Proof.
  destruct s as [|c s]; [done|]. intros Hc%lstrip_head.
  simpl. destruct (PyStr.rstrip s); rewrite ?Hc; simpl; by rewrite Hc.
Qed.

(** [s.strip().strip() == s.strip()] *)
Lemma strip_idem (s : str) : PyStr.strip (PyStr.strip s) = PyStr.strip s.
Proof.
  unfold PyStr.strip.
  rewrite (lstrip_rstrip_fixed (PyStr.lstrip s)) by apply lstrip_idem.
  apply rstrip_idem.
Qed.

(** ** Dictionaries *)

Lemma dict_get_set_eq (k v : str) (d : pydict) :
  dict_get k (dict_set k v d) = Some v.
Proof.
  induction d as [|[k' v'] d IH]; simpl.
  - by rewrite str_eqb_refl.
  - destruct (PyStr.eqb k' k) eqn:E; simpl; rewrite E; done.
Qed.

Lemma dict_get_set_ne (k k' v : str) (d : pydict) :
  k ≠ k' → dict_get k' (dict_set k v d) = dict_get k' d.
Proof.
  intros Hne. induction d as [|[k0 v0] d IH]; simpl.
  - destruct (str_eqb_spec k k'); done.
  - destruct (str_eqb_spec k0 k) as [->|]; simpl.
    + destruct (str_eqb_spec k k'); done.
    + by rewrite IH.
Qed.

Lemma dict_set_elem (k v : str) (d : pydict) (e : str * str) :
  e ∈ dict_set k v d → e = (k, v) ∨ e ∈ d.
Proof.
  induction d as [|[k0 v0] d IH]; simpl.
  - intros ->%list_elem_of_singleton. by left.
  - destruct (str_eqb_spec k0 k) as [->|].
    + intros [->|H]%elem_of_cons; [by left|right; by apply list_elem_of_further].
    + intros [->|H]%elem_of_cons; [right; apply list_elem_of_here|].
      destruct (IH H) as [->|H']; [by left|right; by apply list_elem_of_further].
Qed.

Lemma dict_set_keys (k v : str) (d : pydict) (k' : str) :
  k' ∈ dict_keys (dict_set k v d) ↔ k' = k ∨ k' ∈ dict_keys d.
Proof.
  unfold dict_keys. induction d as [|[k0 v0] d IH]; simpl.
  - rewrite list_elem_of_singleton. split; [by left|].
    intros [?|H]; [done|]. by apply elem_of_nil in H.
  - destruct (str_eqb_spec k0 k) as [->|]; simpl.
    + rewrite !elem_of_cons. tauto.
    + rewrite !elem_of_cons, IH. tauto.
Qed.

Lemma dict_set_NoDup (k v : str) (d : pydict) :
  NoDup (dict_keys d) → NoDup (dict_keys (dict_set k v d)).
Proof.
  unfold dict_keys. induction d as [|[k0 v0] d IH]; simpl.
  - intros _. apply NoDup_singleton.
  - intros [Hnotin Hnd]%NoDup_cons.
    destruct (str_eqb_spec k0 k) as [->|Hne]; simpl.
    + by apply NoDup_cons.
    + apply NoDup_cons. split; [|by apply IH].
      intros Hin. apply (dict_set_keys k v d k0) in Hin as [?|?]; done.
Qed.

(** ** The mapping loader *)

Lemma blank_spec (r : row) (col : nat) :
  blank (cell_at r col) = true ↔ target_missing r col.
Proof.
  unfold blank, cell_at, target_missing.
  destruct (r !! col) as [v|] eqn:E.
  - apply lookup_lt_Some in E as Hlt. rewrite orb_true_iff. split.
    + intros [H|H].
      * destruct v; try done. right. by left.
      * right. right. exists v. split; [done|]. by apply str_eqb_eq.
    + intros [H|[H|(w & [= <-] & H)]].
      * lia.
      * injection H as ->. by left.
      * right. by apply str_eqb_eq.
  - apply lookup_ge_None in E. simpl. split; [by left|done].
Qed.

Lemma row_entry_None (fn_col pw_col : nat) (r : row) :
  row_entry fn_col pw_col r = None ↔ target_missing r fn_col ∨ target_missing r pw_col.
Proof.
  unfold row_entry. rewrite <- !blank_spec.
  destruct (blank (cell_at r fn_col)), (blank (cell_at r pw_col)); simpl;
    split; try done; try tauto; intros [?|?]; done.
Qed.

Lemma row_entry_valid (fn_col pw_col : nat) (r : row) (e : str * str) :
  row_entry fn_col pw_col r = Some e → valid_entry e.
Proof.
  unfold row_entry, blank, valid_entry.
  destruct (is_None (cell_at r fn_col)); simpl; [done|].
  destruct (str_eqb_spec (PyStr.strip (py_str (cell_at r fn_col))) []); simpl; [done|].
  destruct (is_None (cell_at r pw_col)); simpl; [done|].
  destruct (str_eqb_spec (PyStr.strip (py_str (cell_at r pw_col))) []); simpl; [done|].
  intros [= <-]. simpl. by rewrite !strip_idem.
Qed.

Lemma load_row_entry (fn_col pw_col : nat) (mapping : pydict) (r : row) :
  load_row fn_col pw_col mapping r =
  match row_entry fn_col pw_col r with
  | Some (k, v) => dict_set k v mapping
  | None => mapping
  end.
Proof.
  unfold load_row, row_entry.
  destruct (blank (cell_at r fn_col)); simpl; [done|].
  destruct (blank (cell_at r pw_col)); done.
Qed.

Section LoadLoop.

Variables fn_col pw_col : nat.

Lemma load_loop_get (data : list row) (mapping : pydict) (k : str) :
  dict_get k (fold_left (load_row fn_col pw_col) data mapping) =
  match last_declared k (declared fn_col pw_col data) with
  | Some v => Some v
  | None => dict_get k mapping
  end.
Proof.
  revert mapping. induction data as [|r data IH]; intros mapping; simpl; [done|].
  rewrite IH, load_row_entry.
  destruct (row_entry fn_col pw_col r) as [[k' v]|]; simpl; [|done].
  destruct (last_declared k (declared fn_col pw_col data)); [done|].
  destruct (str_eqb_spec k' k) as [->|Hne].
  - apply dict_get_set_eq.
  - by apply dict_get_set_ne.
Qed.

Lemma load_loop_valid (data : list row) (mapping : pydict) :
  Forall valid_entry mapping →
  Forall valid_entry (fold_left (load_row fn_col pw_col) data mapping).
Proof.
  revert mapping. induction data as [|r data IH]; intros mapping Hm; simpl; [done|].
  apply IH. rewrite load_row_entry.
  destruct (row_entry fn_col pw_col r) as [[k v]|] eqn:E; [|done].
  apply Forall_forall. intros e He. apply dict_set_elem in He as [->|He].
  - by eapply row_entry_valid.
  - rewrite Forall_forall in Hm. by apply Hm.
Qed.

Lemma load_loop_NoDup (data : list row) (mapping : pydict) :
  NoDup (dict_keys mapping) →
  NoDup (dict_keys (fold_left (load_row fn_col pw_col) data mapping)).
Proof.
  revert mapping. induction data as [|r data IH]; intros mapping Hm; simpl; [done|].
  apply IH. rewrite load_row_entry.
  destruct (row_entry fn_col pw_col r) as [[k v]|]; [|done].
  by apply dict_set_NoDup.
Qed.

End LoadLoop.

Lemma load_loop_drop (fn_col pw_col : nat) (before after : list row) (r : row)
    (mapping : pydict) :
  target_missing r fn_col ∨ target_missing r pw_col →
  fold_left (load_row fn_col pw_col) (before ++ r :: after) mapping =
  fold_left (load_row fn_col pw_col) (before ++ after) mapping.
Proof.
  intros Hmiss%row_entry_None. rewrite !fold_left_app. simpl.
  by rewrite (load_row_entry _ _ _ r), Hmiss.
Qed.

(** C5: every entry of the mapping the loader returns has a filename and a
    password that are trimmed and not empty, and no filename occurs twice.  A
    data row whose filename or password column is out of range, [None] or
    empty once trimmed declares nothing, and leaving it out changes nothing
    (no error comes of it).  The password found under a filename is the one
    of the last data row declaring that filename. *)
Theorem loader_mapping_invariant (load_workbook : str -> exn + workbook)
    (excel_path : str) (sheet : option str) (mapping : pydict) :
  load_mapping_from_excel load_workbook excel_path sheet = inr mapping →
  Forall valid_entry mapping
  ∧ NoDup (dict_keys mapping)
  ∧ ∃ wb first rest fn_col pw_col has_header,
      load_workbook excel_path = inr wb
      ∧ select_sheet wb sheet = inr (first :: rest)
      ∧ detect_columns first = (fn_col, pw_col, has_header)
      ∧ let data := drop (start_idx has_header) (first :: rest) in
        mapping = fold_left (load_row fn_col pw_col) data []
        ∧ (∀ r, row_entry fn_col pw_col r = None ↔
                target_missing r fn_col ∨ target_missing r pw_col)
        ∧ (∀ before r after,
             data = before ++ r :: after →
             target_missing r fn_col ∨ target_missing r pw_col →
             mapping = fold_left (load_row fn_col pw_col) (before ++ after) [])
        ∧ (∀ k, dict_get k mapping = last_declared k (declared fn_col pw_col data)).
Proof.
  unfold load_mapping_from_excel. intros Hload.
  destruct (load_workbook excel_path) as [e|wb] eqn:Hwb; [done|].
  destruct (select_sheet wb sheet) as [e|rows] eqn:Hsel; [done|].
  destruct rows as [|first rest]; [done|].
  unfold mapping_of_rows in Hload.
  destruct (detect_columns first) as [[fn_col pw_col] has_header] eqn:Hdet.
  injection Hload as <-. split; [|split].
  - by apply load_loop_valid.
  - apply load_loop_NoDup. apply NoDup_nil_2.
  - exists wb, first, rest, fn_col, pw_col, has_header.
    repeat split; try done.
    + by apply row_entry_None.
    + by apply row_entry_None.
    + intros before r after -> Hmiss. by apply load_loop_drop.
    + intros k. rewrite load_loop_get.
      by destruct (last_declared k _).
Qed.

Lemma select_sheet_missing (wb : workbook) (name : str) :
  name ≠ [] → name ∉ sheetnames wb →
  select_sheet wb (Some name) = inl (ValueError (SheetNotFound name (sheetnames wb))).
Proof.
  intros Hne Hnot. unfold select_sheet, PyStr.truthy.
  destruct (str_eqb_spec name []); [done|]. simpl.
  by rewrite bool_decide_eq_false_2.
Qed.

(** C7, as the program has it: a failure of the reader reaches the caller as
    it is; a named sheet that the workbook does not have and a sheet without
    rows both raise [ValueError], told apart by what the error says and not
    by its class. *)
Theorem loader_failures_are_ValueError (load_workbook : str -> exn + workbook)
    (excel_path : str) (sheet : option str) :
  (∀ e, load_workbook excel_path = inl e →
        load_mapping_from_excel load_workbook excel_path sheet = inl e)
  ∧ (∀ wb name,
       load_workbook excel_path = inr wb → sheet = Some name →
       name ≠ [] → name ∉ sheetnames wb →
       load_mapping_from_excel load_workbook excel_path sheet
       = inl (ValueError (SheetNotFound name (sheetnames wb))))
  ∧ (∀ wb,
       load_workbook excel_path = inr wb → select_sheet wb sheet = inr [] →
       load_mapping_from_excel load_workbook excel_path sheet
       = inl (ValueError EmptySheet))
  ∧ (∀ name names,
       exn_class (ValueError (SheetNotFound name names)) = exn_class (ValueError EmptySheet)
       ∧ SheetNotFound name names ≠ EmptySheet).
Proof.
  unfold load_mapping_from_excel. repeat split.
  - intros e ->. done.
  - intros wb name -> -> Hne Hnot. by rewrite select_sheet_missing.
  - intros wb -> ->. done.
  - done.
Qed.

(** ** The batch driver *)

(** The temporary file is never the original. *)
Lemma tmp_path_fresh (in_pdf : str) : in_pdf ++ py ".tmp_encrypt" ≠ in_pdf.
Proof.
  intros H. apply (f_equal length) in H. rewrite length_app in H.
  change (length (py ".tmp_encrypt")) with 12 in H. lia.
Qed.

(** Resolved names end in f once lowercased, temporary paths end in t. *)

Lemma join_last (a b : str) : b ≠ [] → last (Path.join a b) = last b.
Proof.
  intros Hb. unfold Path.join.
  destruct (PyStr.startswith b (py "/")); [done|].
  destruct (PyStr.eqb a [] || PyStr.endswith a (py "/")).
  - by apply last_app_nonempty.
  - rewrite last_app_nonempty; [by apply last_app_nonempty|].
    by destruct b.
Qed.

Lemma ends_f_nonempty (s : str) : ends_f s → s ≠ [].
Proof. by intros H ->. Qed.

Lemma ends_f_not_t (s : str) : ends_f s → last s ≠ Some 116%N.
Proof.
  unfold ends_f. intros H Ht.
  rewrite (last_lower_ascii s 116 Ht) in H by lia. discriminate H.
Qed.

Lemma ends_f_lower (a b : str) : PyStr.lower a = PyStr.lower b → ends_f b → ends_f a.
Proof. unfold ends_f. by intros ->. Qed.

Lemma ends_f_base_name (name : str) : ends_f (base_name name).
Proof.
  unfold ends_f, base_name.
  destruct (PyStr.endswith (PyStr.lower (PyStr.strip name)) (py ".pdf")) eqn:Hext.
  - by rewrite (endswith_last _ (py ".pdf")).
  - by rewrite (endswith_last _ (py ".pdf") (endswith_lower_pdf _)).
Qed.

Lemma scan_listing_Some files cwd target entries p :
  scan_listing files cwd target entries = Some p →
  ∃ f, f ∈ entries ∧ PyStr.lower f = target ∧ p = Path.join cwd f.
Proof.
  induction entries as [|f rest IH]; simpl; [done|].
  destruct (str_eqb_spec (PyStr.lower f) target) as [Heq|]; simpl.
  - destruct (isfile files (Path.join cwd f)).
    + intros [= <-]. exists f. split; [apply list_elem_of_here|done].
    + intros H. destruct (IH H) as (g & Hg & ? & ?). exists g.
      split; [by apply list_elem_of_further|done].
  - intros H. destruct (IH H) as (g & Hg & ? & ?). exists g.
    split; [by apply list_elem_of_further|done].
Qed.

(** A path the resolver returns is the working directory joined with a name
    that is the base name up to letter case. *)
Lemma resolve_pdf_path_name files listdir cwd name p :
  resolve_pdf_path files listdir cwd name = Some p →
  ∃ x, p = Path.join cwd x
       ∧ PyStr.lower x = PyStr.lower (base_name name)
       ∧ (x = base_name name ∨ x ∈ listdir cwd).
Proof.
  unfold resolve_pdf_path, resolve_base, base_name.
  destruct (PyStr.endswith (PyStr.lower (PyStr.strip name)) (py ".pdf")).
  - destruct (isfile files (Path.join cwd (PyStr.strip name))).
    + intros [= <-]. exists (PyStr.strip name). auto.
    + intros (f & Hf & Hlow & ->)%scan_listing_Some. exists f. auto.
  - destruct (isfile files (Path.join cwd (PyStr.strip name ++ py ".pdf"))).
    + intros [= <-]. exists (PyStr.strip name ++ py ".pdf"). auto.
    + intros (f & Hf & Hlow & ->)%scan_listing_Some. exists f. auto.
Qed.

Lemma resolve_pdf_path_last files listdir cwd name p :
  resolve_pdf_path files listdir cwd name = Some p →
  ∃ c, last p = Some c ∧ c ≠ 116%N.
Proof.
  intros (x & -> & Hlow & _)%resolve_pdf_path_name.
  assert (ends_f x) as Hx.
  { apply (ends_f_lower x (base_name name)); [done|apply ends_f_base_name]. }
  rewrite join_last by by apply ends_f_nonempty.
  destruct (last x) as [c|] eqn:E.
  - exists c. split; [done|]. intros ->. by apply (ends_f_not_t x).
  - apply last_None in E. by apply ends_f_nonempty in Hx.
Qed.

(** A path the resolver returns is not empty and is no temporary file. *)
Lemma resolve_pdf_path_nonempty files listdir cwd name p :
  resolve_pdf_path files listdir cwd name = Some p → p ≠ [].
Proof. by intros (c & Hc & _)%resolve_pdf_path_last ->. Qed.

Lemma resolve_pdf_path_not_tmp files listdir cwd name p :
  resolve_pdf_path files listdir cwd name = Some p →
  ∀ q, p ≠ q ++ py ".tmp_encrypt".
Proof.
  intros (c & Hc & Hne)%resolve_pdf_path_last q ->.
  rewrite last_app_nonempty in Hc by done. by injection Hc as <-.
Qed.

Section DriverFacts.

Variable listdir : gmap str content -> str -> list str.
Variable pikepdf_save : content -> str -> str -> save_outcome.
Variable load_workbook : gmap str content -> str -> exn + workbook.

Variable cwd : str.
Variable args : arguments.
Variable outdir_path : str.

Lemma resolved_isfile (s : state) (name path : str) :
  found (resolve_pdf_path (files s) (listdir (files s)) cwd name) = Some path →
  ∃ doc, files s !! path = Some doc.
Proof.
  unfold found.
  destruct (resolve_pdf_path _ _ _ _) as [p|] eqn:E; [|done].
  destruct (PyStr.truthy p); [|done]. intros [= <-].
  apply resolve_pdf_path_isfile in E. unfold isfile in E.
  apply bool_decide_eq_true_1 in E. by destruct E as [doc ?]; exists doc.
Qed.

Lemma step_skip (c : counters) (name password : str) (s : state) :
  found (resolve_pdf_path (files s) (listdir (files s)) cwd name) = None →
  process_entry listdir pikepdf_save cwd args outdir_path c (name, password) s =
  (Ret (count_skipped c),
   {| files := files s; printed := printed s ++ [(Stdout, MsgSkip name)];
      calls := calls s |}).
Proof.
  intros H. unfold process_entry, resolve, bind, get_files, ret. simpl.
  rewrite H. reflexivity.
Qed.

Lemma step_raised (c : counters) (name password : str) (s : state)
    (path : str) (doc : content) (e : exn) (left : option content) :
  found (resolve_pdf_path (files s) (listdir (files s)) cwd name) = Some path →
  files s !! path = Some doc →
  pikepdf_save doc password (owner_rule (owner args) password) = SaveRaised e left →
  process_entry listdir pikepdf_save cwd args outdir_path c (name, password) s =
  (Ret (count_failed c),
   {| files := match left with
               | Some part => <[out_path_of args outdir_path path := part]> (files s)
               | None => files s
               end;
      printed := printed s ++ [failure_line path e];
      calls := calls s ++ [call_of args outdir_path path password] |}).
Proof.
  intros Hres Hdoc Hsave.
  unfold process_entry, resolve, bind, get_files, ret. simpl. rewrite Hres.
  unfold try_except, attempt, bind, encrypt_pdf, pikepdf_open_save, call_of,
    out_path_of, owner_rule in *.
  destruct (inplace args); simpl; rewrite Hdoc, Hsave;
    destruct left; simpl; destruct e; reflexivity.
Qed.

Lemma step_saved (c : counters) (name password : str) (s : state)
    (path : str) (doc out : content) :
  found (resolve_pdf_path (files s) (listdir (files s)) cwd name) = Some path →
  files s !! path = Some doc →
  pikepdf_save doc password (owner_rule (owner args) password) = Saved out →
  process_entry listdir pikepdf_save cwd args outdir_path c (name, password) s =
  (Ret (count_ok c),
   {| files := if inplace args
               then <[path := out]> (delete (path ++ py ".tmp_encrypt")
                                       (<[path ++ py ".tmp_encrypt" := out]> (files s)))
               else <[out_path_of args outdir_path path := out]> (files s);
      printed := printed s ++
                 [(Stdout, if inplace args then MsgOkInplace (Path.basename path)
                           else MsgOkOutdir (Path.basename path) (outdir args))];
      calls := calls s ++ [call_of args outdir_path path password] |}).
Proof.
  intros Hres Hdoc Hsave.
  unfold process_entry, resolve, bind, get_files, ret. simpl. rewrite Hres.
  unfold try_except, attempt, bind, encrypt_pdf, pikepdf_open_save, safe_replace, print, set_files,
    call_of, out_path_of, owner_rule in *.
  destruct (inplace args); simpl; rewrite Hdoc, Hsave; simpl.
  - rewrite lookup_insert_eq. reflexivity.
  - reflexivity.
Qed.

(** What one turn of the loop comes to, case by case. *)
Lemma step_cases (c : counters) (name password : str) (s : state) :
  (found (resolve_pdf_path (files s) (listdir (files s)) cwd name) = None
   ∧ process_entry listdir pikepdf_save cwd args outdir_path c (name, password) s =
     (Ret (count_skipped c),
      {| files := files s; printed := printed s ++ [(Stdout, MsgSkip name)];
         calls := calls s |}))
  ∨ (∃ path doc e left,
       found (resolve_pdf_path (files s) (listdir (files s)) cwd name) = Some path
       ∧ files s !! path = Some doc
       ∧ pikepdf_save doc password (owner_rule (owner args) password) = SaveRaised e left
       ∧ process_entry listdir pikepdf_save cwd args outdir_path c (name, password) s =
         (Ret (count_failed c),
          {| files := match left with
                      | Some part => <[out_path_of args outdir_path path := part]> (files s)
                      | None => files s
                      end;
             printed := printed s ++ [failure_line path e];
             calls := calls s ++ [call_of args outdir_path path password] |}))
  ∨ (∃ path doc out,
       found (resolve_pdf_path (files s) (listdir (files s)) cwd name) = Some path
       ∧ files s !! path = Some doc
       ∧ pikepdf_save doc password (owner_rule (owner args) password) = Saved out
       ∧ process_entry listdir pikepdf_save cwd args outdir_path c (name, password) s =
         (Ret (count_ok c),
          {| files := if inplace args
                      then <[path := out]>
                             (delete (path ++ py ".tmp_encrypt")
                                (<[path ++ py ".tmp_encrypt" := out]> (files s)))
                      else <[out_path_of args outdir_path path := out]> (files s);
             printed := printed s ++
                        [(Stdout, if inplace args then MsgOkInplace (Path.basename path)
                                  else MsgOkOutdir (Path.basename path) (outdir args))];
             calls := calls s ++ [call_of args outdir_path path password] |})).
Proof.
  destruct (found (resolve_pdf_path (files s) (listdir (files s)) cwd name))
    as [path|] eqn:Hres.
  - destruct (resolved_isfile _ _ _ Hres) as [doc Hdoc].
    destruct (pikepdf_save doc password (owner_rule (owner args) password))
      as [out|e left] eqn:Hsave.
    + right. right. exists path, doc, out. repeat split; try done.
      by eapply step_saved.
    + right. left. exists path, doc, e, left. repeat split; try done.
      by eapply step_raised.
  - left. split; [done|]. by apply step_skip.
Qed.

(** A turn of the loop always hands the counters on: nothing escapes it. *)
Lemma step_returns (c : counters) (item : str * str) (s : state) :
  ∃ c' s',
    process_entry listdir pikepdf_save cwd args outdir_path c item s = (Ret c', s')
    ∧ (c' = count_skipped c ∨ c' = count_ok c ∨ c' = count_failed c).
Proof.
  destruct item as [name password].
  destruct (step_cases c name password s)
    as [[_ H]|[(path & doc & e & left & _ & _ & _ & H)|(path & doc & out & _ & _ & _ & H)]];
    rewrite H; eauto 6.
Qed.

Lemma for_each_returns (mapping : pydict) (c : counters) (s : state) :
  ∃ c' s',
    for_each (process_entry listdir pikepdf_save cwd args outdir_path) mapping c s
    = (Ret c', s')
    ∧ total c' = total c + length mapping
    ∧ ok c' + skipped c' + failed c' = ok c + skipped c + failed c + length mapping.
Proof.
  revert c s. induction mapping as [|item rest IH]; intros c s; simpl.
  - exists c, s. unfold ret. repeat split; lia.
  - destruct (step_returns c item s) as (c1 & s1 & Hstep & Hc1).
    destruct (IH c1 s1) as (c2 & s2 & Hrest & Htotal & Hsum).
    exists c2, s2. unfold bind. rewrite Hstep. split; [done|].
    destruct Hc1 as [-> | [-> | ->]]; simpl in *; lia.
Qed.

End DriverFacts.

Section MainFacts.

Variable listdir : gmap str content -> str -> list str.
Variable pikepdf_save : content -> str -> str -> save_outcome.
Variable load_workbook : gmap str content -> str -> exn + workbook.

Variable cwd : str.
Variable args : arguments.

(** [main] before the loop: the three fatal preconditions. *)
Lemma main_excel_missing (s : state) :
  isfile (files s) (excel args) = false →
  main listdir pikepdf_save load_workbook cwd args s =
  (SysExit 2,
   {| files := files s;
      printed := printed s ++ [(Stderr, MsgExcelMissing (excel args))];
      calls := calls s |}).
Proof.
  intros H. unfold main, bind, get_files. simpl. rewrite H. reflexivity.
Qed.

Lemma main_load_failed (s : state) (e : exn) :
  isfile (files s) (excel args) = true →
  load_mapping_from_excel (load_workbook (files s)) (excel args) (sheet args) = inl e →
  main listdir pikepdf_save load_workbook cwd args s =
  (SysExit 2,
   {| files := files s; printed := printed s ++ [(Stderr, MsgLoadFailed e)];
      calls := calls s |}).
Proof.
  intros H Hload. unfold main, bind, get_files, try_except. simpl.
  rewrite H, Hload. reflexivity.
Qed.

Lemma main_no_records (s : state) :
  isfile (files s) (excel args) = true →
  load_mapping_from_excel (load_workbook (files s)) (excel args) (sheet args) = inr [] →
  main listdir pikepdf_save load_workbook cwd args s =
  (SysExit 2,
   {| files := files s; printed := printed s ++ [(Stderr, MsgNoRecords)];
      calls := calls s |}).
Proof.
  intros H Hload. unfold main, bind, get_files, try_except. simpl.
  rewrite H, Hload. reflexivity.
Qed.

(** [main] from the loop on. *)
Lemma main_batch (s sb : state) (mapping : pydict) (c : counters) :
  isfile (files s) (excel args) = true →
  load_mapping_from_excel (load_workbook (files s)) (excel args) (sheet args)
  = inr mapping →
  mapping ≠ [] →
  inplace args = true ∨ isfile (files s) (Path.join cwd (outdir args)) = false →
  batch listdir pikepdf_save cwd args (Path.join cwd (outdir args)) mapping s
  = (Ret c, sb) →
  main listdir pikepdf_save load_workbook cwd args s =
  (SysExit (if Nat.eqb (failed c) 0 then 0 else 1)%Z,
   {| files := files sb; printed := printed sb ++ summary_lines c; calls := calls sb |}).
Proof.
  intros H Hload Hne Hdir Hbatch.
  unfold main, bind, get_files, try_except. simpl. rewrite H, Hload. simpl.
  destruct mapping as [|item rest]; [done|].
  assert ((if negb (inplace args) then makedirs (Path.join cwd (outdir args)) else ret tt) s
          = (Ret tt, s)) as ->.
  { destruct Hdir as [-> | Hdir]; [done|].
    destruct (inplace args); [done|]. simpl. unfold makedirs. by rewrite Hdir. }
  rewrite Hbatch. unfold summary, print, bind, sys_exit, summary_lines. simpl.
  rewrite <- !app_assoc. reflexivity.
Qed.

(** An output directory that cannot be made ends the run before the loop,
    with an exception nobody catches. *)
Lemma main_outdir_blocked (s : state) (mapping : pydict) :
  isfile (files s) (excel args) = true →
  load_mapping_from_excel (load_workbook (files s)) (excel args) (sheet args)
  = inr mapping →
  mapping ≠ [] →
  inplace args = false →
  isfile (files s) (Path.join cwd (outdir args)) = true →
  main listdir pikepdf_save load_workbook cwd args s =
  (Raise (FileExistsError (Path.join cwd (outdir args))), s).
Proof.
  intros H Hload Hne Hin Hdir.
  unfold main, bind, get_files, try_except. simpl. rewrite H, Hload. simpl.
  destruct mapping as [|item rest]; [done|].
  rewrite Hin. simpl. unfold makedirs. rewrite Hdir. by destruct s.
Qed.

End MainFacts.

(** ** The claims about the driver *)

(** C10: every turn of the loop adds one to [total] and one to exactly one of
    [ok], [skipped], [failed]; after the loop [total] is their sum and the
    number of entries of the mapping. *)
Theorem batch_counters_invariant
    (listdir : gmap str content -> str -> list str)
    (pikepdf_save : content -> str -> str -> save_outcome)
    (cwd : str) (args : arguments) (outdir_path : str) :
  (∀ c item s, ∃ c' s',
     process_entry listdir pikepdf_save cwd args outdir_path c item s = (Ret c', s')
     ∧ total c' = total c + 1
     ∧ ((ok c' = ok c + 1 ∧ skipped c' = skipped c ∧ failed c' = failed c)
        ∨ (ok c' = ok c ∧ skipped c' = skipped c + 1 ∧ failed c' = failed c)
        ∨ (ok c' = ok c ∧ skipped c' = skipped c ∧ failed c' = failed c + 1)))
  ∧ (∀ mapping s, ∃ c s',
       batch listdir pikepdf_save cwd args outdir_path mapping s = (Ret c, s')
       ∧ total c = ok c + skipped c + failed c
       ∧ total c = length mapping).
Proof.
  split.
  - intros c item s.
    destruct (step_returns listdir pikepdf_save cwd args outdir_path c item s)
      as (c' & s' & Hstep & Hc').
    exists c', s'. split; [done|].
    destruct Hc' as [-> | [-> | ->]]; simpl; split; try done; tauto.
  - intros mapping s.
    destruct (for_each_returns listdir pikepdf_save cwd args outdir_path mapping zero s)
      as (c & s' & Hrun & Htotal & Hsum).
    exists c, s'. split; [done|]. simpl in *. lia.
Qed.

(** C4: the exit status is 2 when the spreadsheet is not a file, when loading
    it raises, and when the mapping it yields is empty; once the loop has gone
    through all entries it is 0 exactly when [failed] is 0 (whatever was
    skipped) and 1 as soon as one entry failed; and a status of 0 is only
    ever that of a run whose loop ended with [failed] at 0. *)
Theorem exit_status_rule
    (listdir : gmap str content -> str -> list str)
    (pikepdf_save : content -> str -> str -> save_outcome)
    (load_workbook : gmap str content -> str -> exn + workbook)
    (cwd : str) (args : arguments) (s : state) :
  let load :=
    load_mapping_from_excel (load_workbook (files s)) (excel args) (sheet args) in
  let status :=
    exit_status (main listdir pikepdf_save load_workbook cwd args s).1 in
  (isfile (files s) (excel args) = false → status = 2%Z)
  ∧ (∀ e, isfile (files s) (excel args) = true → load = inl e → status = 2%Z)
  ∧ (isfile (files s) (excel args) = true → load = inr [] → status = 2%Z)
  ∧ (∀ mapping,
       isfile (files s) (excel args) = true → load = inr mapping → mapping ≠ [] →
       inplace args = true ∨ isfile (files s) (Path.join cwd (outdir args)) = false →
       ∃ c sb,
         batch listdir pikepdf_save cwd args (Path.join cwd (outdir args)) mapping s
         = (Ret c, sb)
         ∧ (status = 0%Z ↔ failed c = 0)
         ∧ (1 <= failed c → status = 1%Z)
         ∧ (status = 0%Z ∨ status = 1%Z))
  ∧ (status = 0%Z →
     ∃ mapping c sb,
       load = inr mapping
       ∧ batch listdir pikepdf_save cwd args (Path.join cwd (outdir args)) mapping s
         = (Ret c, sb)
       ∧ failed c = 0).
Proof.
  simpl. split; [|split; [|split; [|split]]].
  - intros H. by rewrite main_excel_missing.
  - intros e H Hload. by rewrite (main_load_failed _ _ _ _ _ _ e).
  - intros H Hload. by rewrite main_no_records.
  - intros mapping H Hload Hne Hdir.
    destruct (for_each_returns listdir pikepdf_save cwd args
                (Path.join cwd (outdir args)) mapping zero s)
      as (c & sb & Hrun & _).
    exists c, sb. split; [done|].
    rewrite (main_batch _ _ _ _ _ s sb mapping c) by done. simpl.
    destruct (failed c) as [|n]; simpl; repeat split; try done; try lia; auto.
  - destruct (isfile (files s) (excel args)) eqn:H.
    2: { by rewrite main_excel_missing. }
    destruct (load_mapping_from_excel (load_workbook (files s)) (excel args) (sheet args))
      as [e|mapping] eqn:Hload.
    { by rewrite (main_load_failed _ _ _ _ _ _ e). }
    destruct mapping as [|item rest].
    { by rewrite main_no_records. }
    destruct (inplace args) eqn:Hin;
      [|destruct (isfile (files s) (Path.join cwd (outdir args))) eqn:Hdir].
    2: { by rewrite (main_outdir_blocked _ _ _ _ _ s (item :: rest)). }
    all: destruct (for_each_returns listdir pikepdf_save cwd args
                     (Path.join cwd (outdir args)) (item :: rest) zero s)
           as (c & sb & Hrun & _);
      rewrite (main_batch _ _ _ _ _ s sb (item :: rest) c) by auto;
      simpl; intros Hstatus; exists (item :: rest), c, sb;
      (split; [done|]); (split; [exact Hrun|]);
      by destruct (failed c).
Qed.

(** C9: an entry whose encryption raises, whatever the exception, is caught
    inside the loop: the turn ends normally with [failed] one higher and the
    loop goes on with the entries that remain; the loop as a whole ends
    normally; and [main] then prints the five lines of the summary with the
    counts of the loop. *)
Theorem failure_does_not_abort
    (listdir : gmap str content -> str -> list str)
    (pikepdf_save : content -> str -> str -> save_outcome)
    (load_workbook : gmap str content -> str -> exn + workbook)
    (cwd : str) (args : arguments) :
  (∀ outdir_path c name password rest s path doc e left,
     found (resolve_pdf_path (files s) (listdir (files s)) cwd name) = Some path →
     files s !! path = Some doc →
     pikepdf_save doc password (owner_rule (owner args) password) = SaveRaised e left →
     ∃ s',
       process_entry listdir pikepdf_save cwd args outdir_path c (name, password) s
       = (Ret (count_failed c), s')
       ∧ for_each (process_entry listdir pikepdf_save cwd args outdir_path)
           ((name, password) :: rest) c s
         = for_each (process_entry listdir pikepdf_save cwd args outdir_path)
             rest (count_failed c) s')
  ∧ (∀ outdir_path mapping s, ∃ c s',
       batch listdir pikepdf_save cwd args outdir_path mapping s = (Ret c, s'))
  ∧ (∀ s mapping,
       isfile (files s) (excel args) = true →
       load_mapping_from_excel (load_workbook (files s)) (excel args) (sheet args)
       = inr mapping →
       mapping ≠ [] →
       inplace args = true ∨ isfile (files s) (Path.join cwd (outdir args)) = false →
       ∃ c sb code,
         batch listdir pikepdf_save cwd args (Path.join cwd (outdir args)) mapping s
         = (Ret c, sb)
         ∧ main listdir pikepdf_save load_workbook cwd args s
           = (SysExit code,
              {| files := files sb; printed := printed sb ++ summary_lines c;
                 calls := calls sb |})).
Proof.
  split; [|split].
  - intros outdir_path c name password rest s path doc e left Hres Hdoc Hsave.
    pose proof (step_raised listdir pikepdf_save cwd args outdir_path c name password
                  s path doc e left Hres Hdoc Hsave) as Hstep.
    eexists. split; [exact Hstep|].
    cbn [for_each]. unfold bind. by rewrite Hstep.
  - intros outdir_path mapping s.
    destruct (for_each_returns listdir pikepdf_save cwd args outdir_path mapping zero s)
      as (c & s' & Hrun & _).
    by exists c, s'.
  - intros s mapping H Hload Hne Hdir.
    destruct (for_each_returns listdir pikepdf_save cwd args
                (Path.join cwd (outdir args)) mapping zero s)
      as (c & sb & Hrun & _).
    exists c, sb. eexists. split; [done|].
    by apply (main_batch _ _ _ _ _ s sb mapping c).
Qed.

Lemma for_each_calls
    (listdir : gmap str content -> str -> list str)
    (pikepdf_save : content -> str -> str -> save_outcome)
    (cwd : str) (args : arguments) (outdir_path : str)
    (mapping : pydict) (c : counters) (s : state) :
  ∃ c' s' new,
    for_each (process_entry listdir pikepdf_save cwd args outdir_path) mapping c s
    = (Ret c', s')
    ∧ calls s' = calls s ++ new
    ∧ Forall (fun call => ∃ name password,
                (name, password) ∈ mapping
                ∧ call_user call = password
                ∧ call_owner call = owner_rule (owner args) password) new.
Proof.
  revert c s. induction mapping as [|[name password] rest IH]; intros c s;
    cbn [for_each].
  - exists c, s, []. unfold ret. by rewrite app_nil_r.
  - unfold bind.
    destruct (step_cases listdir pikepdf_save cwd args outdir_path c name password s)
      as [[_ H]|[(path & doc & e & left & _ & _ & _ & H)|(path & doc & out & _ & _ & _ & H)]];
      rewrite H;
      match goal with
      | |- context [for_each _ rest ?c1 ?s1] =>
          destruct (IH c1 s1) as (c' & s' & new & Hrun & Hcalls & Hall)
      end;
      rewrite Hrun; simpl in Hcalls.
    + exists c', s', new. repeat split; try done.
      eapply Forall_impl; [exact Hall|].
      intros call (n & p & Hin & ? & ?). exists n, p.
      split; [by apply list_elem_of_further|done].
    + exists c', s', (call_of args outdir_path path password :: new).
      split; [done|]. split; [by rewrite Hcalls, <- app_assoc|].
      apply Forall_cons. split.
      * exists name, password. split; [apply list_elem_of_here|done].
      * eapply Forall_impl; [exact Hall|].
        intros call (n & p & Hin & ? & ?). exists n, p.
        split; [by apply list_elem_of_further|done].
    + exists c', s', (call_of args outdir_path path password :: new).
      split; [done|]. split; [by rewrite Hcalls, <- app_assoc|].
      apply Forall_cons. split.
      * exists name, password. split; [apply list_elem_of_here|done].
      * eapply Forall_impl; [exact Hall|].
        intros call (n & p & Hin & ? & ?). exists n, p.
        split; [by apply list_elem_of_further|done].
Qed.

(** C6: an entry that resolves has the PDF library run once, on the
    document at the resolved path, with the entry's password as user password
    and, as owner password, that same password when no override was given
    and the override otherwise.  [encrypt_pdf] hands the library these two
    passwords; the session the library notes carries them; and it is the
    answer of the library to exactly these arguments that decides the turn:
    the document it returns is what gets written and the entry counts as
    done, the exception it raises is what gets reported and the entry counts
    as failed.  An entry that does not resolve does not reach the library.
    Over a run, every session carries the password of one of the entries and
    the owner password of the rule: the override for every entry alike when
    there is one, the entry's own password otherwise. *)
Theorem encryption_passwords_rule
    (listdir : gmap str content -> str -> list str)
    (pikepdf_save : content -> str -> str -> save_outcome)
    (cwd : str) (args : arguments) (outdir_path : str) :
  (∀ in_path out_path user_password owner_password s doc,
     files s !! in_path = Some doc →
     let owner_pw :=
       match owner_password with
       | None => user_password
       | Some override => override
       end in
     let run := encrypt_pdf pikepdf_save in_path out_path user_password owner_password s in
     calls run.2 = calls s ++ [{| call_in := in_path; call_out := out_path;
                                  call_user := user_password;
                                  call_owner := owner_pw |}]
     ∧ (∀ out, pikepdf_save doc user_password owner_pw = Saved out →
               run.1 = Ret tt ∧ files run.2 = <[out_path := out]> (files s))
     ∧ (∀ e left, pikepdf_save doc user_password owner_pw = SaveRaised e left →
                  run.1 = Raise e))
  ∧ (∀ c name password s path,
       found (resolve_pdf_path (files s) (listdir (files s)) cwd name) = Some path →
       let owner_pw :=
         match owner args with
         | None => password
         | Some override => override
         end in
       ∃ doc c' s',
         files s !! path = Some doc
         ∧ process_entry listdir pikepdf_save cwd args outdir_path c (name, password) s
           = (Ret c', s')
         ∧ calls s' = calls s ++
             [{| call_in := path;
                 call_out := out_path_of args outdir_path path;
                 call_user := password;
                 call_owner := owner_pw |}]
         ∧ (∀ out, pikepdf_save doc password owner_pw = Saved out →
                   c' = count_ok c
                   ∧ files s' !! (if inplace args then path
                                  else out_path_of args outdir_path path) = Some out)
         ∧ (∀ e left, pikepdf_save doc password owner_pw = SaveRaised e left →
                      c' = count_failed c
                      ∧ printed s' = printed s ++ [failure_line path e]))
  ∧ (∀ c name password s,
       found (resolve_pdf_path (files s) (listdir (files s)) cwd name) = None →
       ∃ c' s',
         process_entry listdir pikepdf_save cwd args outdir_path c (name, password) s
         = (Ret c', s')
         ∧ calls s' = calls s ∧ files s' = files s)
  ∧ (∀ mapping s, ∃ c s' new,
       batch listdir pikepdf_save cwd args outdir_path mapping s = (Ret c, s')
       ∧ calls s' = calls s ++ new
       ∧ Forall (fun call => ∃ name password,
                   (name, password) ∈ mapping
                   ∧ call_user call = password
                   ∧ call_owner call = owner_rule (owner args) password) new
       ∧ (∀ override, owner args = Some override →
                      Forall (fun call => call_owner call = override) new)
       ∧ (owner args = None →
          Forall (fun call => call_owner call = call_user call) new)).
Proof.
  split; [|split; [|split]].
  - intros in_path out_path user_password owner_password s doc Hdoc owner_pw run.
    subst run. unfold encrypt_pdf, pikepdf_open_save. fold owner_pw.
    cbn [files]. rewrite Hdoc.
    destruct (pikepdf_save doc user_password owner_pw) as [out|e [part|]]; simpl.
    + split; [done|]. split; [|done]. by intros ? [= <-].
    + split; [done|]. split; [done|]. by intros ? ? [= <- _].
    + split; [done|]. split; [done|]. by intros ? ? [= <- _].
  - intros c name password s path Hres.
    destruct (step_cases listdir pikepdf_save cwd args outdir_path c name password s)
      as [[Hnone _]|[(p & doc & e & left & Hp & Hdoc & Hsave & H)
                    |(p & doc & out & Hp & Hdoc & Hsave & H)]].
    + congruence.
    + rewrite Hres in Hp. injection Hp as <-. exists doc. eexists _, _.
      split; [exact Hdoc|]. split; [exact H|].
      unfold owner_rule in Hsave. simpl. unfold call_of, owner_rule.
      destruct (owner args); (split; [done|]); rewrite Hsave;
        (split; [done|]); by intros ? ? [= <- _].
    + rewrite Hres in Hp. injection Hp as <-. exists doc. eexists _, _.
      split; [exact Hdoc|]. split; [exact H|].
      unfold owner_rule in Hsave. simpl. unfold call_of, owner_rule.
      pose proof (tmp_path_fresh path) as Htmp.
      destruct (owner args); (split; [done|]); rewrite Hsave;
        (split; [|done]); intros ? [= <-]; (split; [done|]);
        destruct (inplace args); by rewrite lookup_insert_eq.
  - intros c name password s Hres. rewrite step_skip by done. by eexists _, _.
  - intros mapping s.
    destruct (for_each_calls listdir pikepdf_save cwd args outdir_path mapping zero s)
      as (c & s' & new & Hrun & Hcalls & Hall).
    exists c, s', new. split; [exact Hrun|]. split; [exact Hcalls|].
    split; [exact Hall|]. split.
    + intros override Ho. eapply Forall_impl; [exact Hall|].
      intros call (n & p & _ & _ & ->). by rewrite Ho.
    + intros Ho. eapply Forall_impl; [exact Hall|].
      intros call (n & p & _ & -> & ->). by rewrite Ho.
Qed.

(** In place, a run leaves every file as it was before the run, except the
    temporary files and the files a finished rename was put over. *)
Lemma for_each_inplace_frame
    (listdir : gmap str content -> str -> list str)
    (pikepdf_save : content -> str -> str -> save_outcome)
    (cwd : str) (args : arguments) (outdir_path : str) :
  inplace args = true →
  ∀ mapping c s, ∃ c' s',
    for_each (process_entry listdir pikepdf_save cwd args outdir_path) mapping c s
    = (Ret c', s')
    ∧ ∀ p, (∀ q, p ≠ q ++ py ".tmp_encrypt") →
           ¬ renamed_over listdir pikepdf_save cwd args outdir_path p mapping s →
           files s' !! p = files s !! p.
Proof.
  intros Hin. induction mapping as [|[name password] rest IH]; intros c s;
    cbn [for_each].
  - exists c, s. done.
  - unfold bind.
    destruct (step_cases listdir pikepdf_save cwd args outdir_path c name password s)
      as [[_ H]|[(path & doc & e & left & Hres & Hdoc & Hsave & H)
                |(path & doc & out & Hres & Hdoc & Hsave & H)]];
      rewrite H;
      match goal with
      | |- context [for_each _ rest ?c1 ?s1] =>
          destruct (IH c1 s1) as (c' & s' & Hrun & Hframe)
      end;
      exists c', s'; (split; [exact Hrun|]); intros p Hp Hnot;
      (rewrite Hframe;
       [|exact Hp
        |intros Hlater; apply Hnot; eapply renamed_later; [exact H|exact Hlater]]);
      simpl.
    + done.
    + unfold out_path_of. rewrite Hin.
      destruct left; [|done]. rewrite lookup_insert_ne; [done|]. intros Heq.
      by apply (Hp path).
    + rewrite Hin.
      destruct (decide (p = path)) as [->|Hne].
      { exfalso. apply Hnot. by eapply renamed_here. }
      assert (path ++ py ".tmp_encrypt" ≠ p) as Htmp.
      { intros Heq. by apply (Hp path). }
      rewrite lookup_insert_ne by done. rewrite lookup_delete_ne by done.
      by rewrite lookup_insert_ne.
Qed.

(** C1: in place, for an entry whose file resolves, the document goes to the
    temporary sibling [<original>.tmp_encrypt], which is never the original,
    and no other file but these two is touched.  If the encryption raises, at
    whatever point and whatever it left at the temporary path, the original
    holds the bytes it held before and the entry counts as failed.  The
    original holds other bytes afterwards only when the encryption came
    through and the rename put the finished temporary file in its place, the
    temporary file being gone.  Over a whole run, a file that is not a
    temporary file holds at the end the bytes it held before the run unless
    such a rename was put over it; and no path the resolver returns is a
    temporary file. *)
Theorem inplace_original_survives_failure
    (listdir : gmap str content -> str -> list str)
    (pikepdf_save : content -> str -> str -> save_outcome)
    (cwd : str) (args : arguments) (outdir_path : str) :
  inplace args = true →
  (∀ c name password s path,
     found (resolve_pdf_path (files s) (listdir (files s)) cwd name) = Some path →
     ∃ doc c' s',
       files s !! path = Some doc
       ∧ process_entry listdir pikepdf_save cwd args outdir_path c (name, password) s
         = (Ret c', s')
       ∧ (∀ e left,
            pikepdf_save doc password (owner_rule (owner args) password)
            = SaveRaised e left →
            files s' !! path = Some doc ∧ c' = count_failed c)
       ∧ (files s' !! path ≠ Some doc →
          ∃ out,
            pikepdf_save doc password (owner_rule (owner args) password) = Saved out
            ∧ files s' !! path = Some out
            ∧ files s' !! (path ++ py ".tmp_encrypt") = None
            ∧ c' = count_ok c)
       ∧ (∀ other, other ≠ path → other ≠ path ++ py ".tmp_encrypt" →
                   files s' !! other = files s !! other))
  ∧ (∀ fs name path,
       resolve_pdf_path fs (listdir fs) cwd name = Some path →
       ∀ q, path ≠ q ++ py ".tmp_encrypt")
  ∧ (∀ mapping s, ∃ c s',
       batch listdir pikepdf_save cwd args outdir_path mapping s = (Ret c, s')
       ∧ ∀ p, (∀ q, p ≠ q ++ py ".tmp_encrypt") →
              ¬ renamed_over listdir pikepdf_save cwd args outdir_path p mapping s →
              files s' !! p = files s !! p).
Proof.
  intros Hin. split; [|split].
  - intros c name password s path Hres.
    pose proof (tmp_path_fresh path) as Htmp.
    destruct (step_cases listdir pikepdf_save cwd args outdir_path c name password s)
      as [[Hnone _]|[(p & doc & e & left & Hp & Hdoc & Hsave & H)
                    |(p & doc & out & Hp & Hdoc & Hsave & H)]].
    + congruence.
    + rewrite Hres in Hp. injection Hp as <-.
      unfold out_path_of in H. rewrite Hin in H.
      eexists doc, _, _. split; [done|]. split; [exact H|].
      assert (match left with
              | Some part => <[path ++ py ".tmp_encrypt" := part]> (files s)
              | None => files s
              end !! path = Some doc) as Hkept.
      { destruct left; [by rewrite lookup_insert_ne|done]. }
      simpl. split; [|split].
      * intros e' left' _. done.
      * intros Hchanged. by destruct Hchanged.
      * intros other _ Hother. destruct left; [by rewrite lookup_insert_ne|done].
    + rewrite Hres in Hp. injection Hp as <-. rewrite Hin in H.
      eexists doc, _, _. split; [done|]. split; [exact H|].
      simpl. split; [|split].
      * intros e left Hraised. congruence.
      * intros _. exists out. repeat split; try done.
        -- by rewrite lookup_insert_eq.
        -- rewrite lookup_insert_ne by done. by rewrite lookup_delete_eq.
      * intros other Hpath Hother.
        rewrite lookup_insert_ne by done. rewrite lookup_delete_ne by done.
        by rewrite lookup_insert_ne.
  - intros fs name path Hres q.
    by apply (resolve_pdf_path_not_tmp _ _ _ _ _ Hres).
  - intros mapping s. by apply for_each_inplace_frame.
Qed.

Lemma found_resolve (files : gmap str content) (listdir : str -> list str)
    (cwd name : str) :
  found (resolve_pdf_path files listdir cwd name)
  = resolve_pdf_path files listdir cwd name.
Proof.
  destruct (resolve_pdf_path files listdir cwd name) as [p|] eqn:E; [|done].
  apply resolve_pdf_path_nonempty in E.
  unfold found, PyStr.truthy. by destruct (str_eqb_spec p []).
Qed.

(** C8: take two declared filenames, the first without the extension and the
    second with it in some letter case, that both resolve.  The paths
    returned are regular files of the working directory whose names are, up
    to letter case, the first filename with [".pdf"] appended and the second
    filename as it stands.  When the two filenames are one name (equal once
    the extension is appended and both are lowercased) and the directory
    holds one file, [phys], under that name up to letter case, both resolve
    to that file: the resolver returns the same path for both.  And whenever
    both resolve to the same file, the turn of the loop for either of them,
    under one password, is the same turn: the same document read, the same
    files written, the same lines printed, the same counters, the same
    session with the PDF library. *)
Theorem declared_name_variants_agree
    (listdir : gmap str content -> str -> list str)
    (pikepdf_save : content -> str -> str -> save_outcome)
    (cwd : str) (args : arguments) (outdir_path : str)
    (c : counters) (s : state) (bare full password : str) :
  PyStr.endswith (PyStr.lower (PyStr.strip bare)) (py ".pdf") = false →
  PyStr.endswith (PyStr.lower (PyStr.strip full)) (py ".pdf") = true →
  ∀ p1 p2,
    resolve_pdf_path (files s) (listdir (files s)) cwd bare = Some p1 →
    resolve_pdf_path (files s) (listdir (files s)) cwd full = Some p2 →
    (∃ x1 x2,
       p1 = Path.join cwd x1 ∧ p2 = Path.join cwd x2
       ∧ PyStr.lower x1 = PyStr.lower (PyStr.strip bare ++ py ".pdf")
       ∧ PyStr.lower x2 = PyStr.lower (PyStr.strip full)
       ∧ isfile (files s) p1 = true ∧ isfile (files s) p2 = true)
    ∧ (∀ phys,
         PyStr.lower (PyStr.strip bare ++ py ".pdf") = PyStr.lower (PyStr.strip full) →
         (∀ x, PyStr.lower x = PyStr.lower (PyStr.strip full) →
               isfile (files s) (Path.join cwd x) = true → x = phys) →
         p1 = Path.join cwd phys ∧ p2 = Path.join cwd phys)
    ∧ (p1 = p2 →
       process_entry listdir pikepdf_save cwd args outdir_path c (bare, password) s
       = process_entry listdir pikepdf_save cwd args outdir_path c (full, password) s).
Proof.
  intros Hbare Hfull p1 p2 H1 H2.
  pose proof (resolve_pdf_path_isfile _ _ _ _ _ H1) as Hfile1.
  pose proof (resolve_pdf_path_isfile _ _ _ _ _ H2) as Hfile2.
  destruct (resolve_pdf_path_name _ _ _ _ _ H1) as (x1 & Hp1 & Hlow1 & _).
  destruct (resolve_pdf_path_name _ _ _ _ _ H2) as (x2 & Hp2 & Hlow2 & _).
  unfold base_name in Hlow1, Hlow2. rewrite Hbare in Hlow1. rewrite Hfull in Hlow2.
  split; [|split].
  - by exists x1, x2.
  - intros phys Hsame Hone. rewrite Hsame in Hlow1. subst p1 p2.
    by rewrite (Hone x1 Hlow1 Hfile1), (Hone x2 Hlow2 Hfile2).
  - intros <-. unfold process_entry, resolve, bind, get_files, ret. simpl.
    by rewrite !found_resolve, H1, H2.
Qed.

(** * Further properties *)

(** ** Normalisation *)

Lemma lower_ascii_not_space (c : N) :
  PyStr.is_space (PyStr.lower_ascii c) = PyStr.is_space c.
Proof.
  unfold PyStr.lower_ascii.
  destruct ((65 <=? c) && (c <=? 90))%N eqn:E; [|done].
  apply andb_true_iff in E as [H1%N.leb_le H2%N.leb_le].
  unfold PyStr.is_space.
  repeat match goal with
         | |- context [(?a <=? ?b)%N] => destruct (N.leb_spec a b); try lia
         | |- context [(?a =? ?b)%N] => destruct (N.eqb_spec a b); try lia
         end;
    reflexivity.
Qed.

Lemma lower_ascii_idem (c : N) :
  PyStr.lower_ascii (PyStr.lower_ascii c) = PyStr.lower_ascii c.
Proof.
  unfold PyStr.lower_ascii.
  destruct ((65 <=? c) && (c <=? 90))%N eqn:E; [|by rewrite E].
  apply andb_true_iff in E as [H1%N.leb_le H2%N.leb_le].
  destruct (N.leb_spec 65 (c + 32)); [|lia].
  destruct (N.leb_spec (c + 32) 90); [lia|done].
Qed.

Lemma lower_ascii_lt (c : N) : (c < 128)%N → (PyStr.lower_ascii c < 128)%N.
Proof.
  unfold PyStr.lower_ascii. intros Hc.
  destruct ((65 <=? c) && (c <=? 90))%N eqn:E; [|done].
  apply andb_true_iff in E as [H1%N.leb_le H2%N.leb_le]. lia.
Qed.

Lemma lower_ascii_text (s : str) :
  ascii_text s → PyStr.lower s = map PyStr.lower_ascii s.
Proof. apply lower_from_ascii. Qed.

Lemma ascii_text_lower (s : str) : ascii_text s → ascii_text (map PyStr.lower_ascii s).
Proof.
  unfold ascii_text. induction 1 as [|c s Hc _ IH]; simpl; constructor; [|done].
  by apply lower_ascii_lt.
Qed.

Lemma ascii_text_lstrip (s : str) : ascii_text s → ascii_text (PyStr.lstrip s).
Proof.
  unfold ascii_text. induction 1 as [|c s Hc Hs IH]; cbn [PyStr.lstrip]; [done|].
  destruct (PyStr.is_space c); [done|by constructor].
Qed.

Lemma ascii_text_rstrip (s : str) : ascii_text s → ascii_text (PyStr.rstrip s).
Proof.
  unfold ascii_text. induction 1 as [|c s Hc Hs IH]; cbn [PyStr.rstrip]; [done|].
  destruct (PyStr.rstrip s) as [|a r].
  - destruct (PyStr.is_space c); [done|by constructor].
  - by constructor.
Qed.

Lemma ascii_text_strip (s : str) : ascii_text s → ascii_text (PyStr.strip s).
Proof. intros H. by apply ascii_text_rstrip, ascii_text_lstrip. Qed.

Lemma lstrip_map_lower (s : str) :
  PyStr.lstrip (map PyStr.lower_ascii s) = map PyStr.lower_ascii (PyStr.lstrip s).
Proof.
  induction s as [|c s IH]; cbn [PyStr.lstrip map]; [done|].
  rewrite lower_ascii_not_space. by destruct (PyStr.is_space c).
Qed.

Lemma rstrip_map_lower (s : str) :
  PyStr.rstrip (map PyStr.lower_ascii s) = map PyStr.lower_ascii (PyStr.rstrip s).
Proof.
  induction s as [|c s IH]; cbn [PyStr.rstrip map]; [done|].
  rewrite IH, lower_ascii_not_space.
  destruct (PyStr.rstrip s); cbn [map]; [by destruct (PyStr.is_space c)|done].
Qed.

Lemma strip_map_lower (s : str) :
  PyStr.strip (map PyStr.lower_ascii s) = map PyStr.lower_ascii (PyStr.strip s).
Proof. unfold PyStr.strip. by rewrite lstrip_map_lower, rstrip_map_lower. Qed.

Lemma map_lower_idem (s : str) :
  map PyStr.lower_ascii (map PyStr.lower_ascii s) = map PyStr.lower_ascii s.
Proof.
  induction s as [|c s IH]; cbn [map]; [done|]. by rewrite lower_ascii_idem, IH.
Qed.

(** X1: white space around the text of a cell plays no part in [norm]; and
    on ASCII text [norm] gives text that is trimmed and lowercase, so that
    normalising a normalised cell changes nothing, and trimming and
    lowercasing can be done in either order. *)
Theorem norm_idempotent (v : cell) :
  norm (CStr (PyStr.strip (py_str v))) = norm v
  ∧ (ascii_text (py_str v) →
     norm (CStr (norm v)) = norm v
     ∧ PyStr.strip (norm v) = norm v
     ∧ PyStr.lower (norm v) = norm v
     ∧ norm v = PyStr.strip (PyStr.lower (py_str v))).
Proof.
  unfold norm. cbn [py_str]. split; [by rewrite strip_idem|].
  intros Hv. pose proof (ascii_text_strip _ Hv) as Hs.
  pose proof (ascii_text_lower _ Hs) as Hl.
  rewrite (lower_ascii_text _ Hs), (lower_ascii_text _ Hv).
  rewrite !strip_map_lower, strip_idem.
  rewrite (lower_ascii_text _ Hl), map_lower_idem. done.
Qed.

(** ** Header detection *)

Lemma header_values_length (first : row) :
  length (header_values first) = length first.
Proof. unfold header_values. apply length_map. Qed.

Lemma aliases_disjoint (v : str) :
  v ∈ HEADER_ALIASES_filename → v ∉ HEADER_ALIASES_password.
Proof.
  revert v. apply Forall_forall. compute_done.
Qed.

(** X2: when the first row holds a filename alias and a password alias, it is
    a header, the two columns found are different, both lie inside the row,
    and each holds an alias of its own kind. *)
Theorem detect_columns_both_present (first : row) (fn pw : nat) (has_header : bool) :
  detect_columns first = (fn, pw, has_header) →
  (∃ v, v ∈ header_values first ∧ v ∈ HEADER_ALIASES_filename) →
  (∃ w, w ∈ header_values first ∧ w ∈ HEADER_ALIASES_password) →
  has_header = true
  ∧ fn ≠ pw
  ∧ fn < length first
  ∧ pw < length first
  ∧ (∃ v, header_values first !! fn = Some v ∧ v ∈ HEADER_ALIASES_filename)
  ∧ (∃ w, header_values first !! pw = Some w ∧ w ∈ HEADER_ALIASES_password).
Proof.
  intros Hdet (v & Hv & Hvfn) (w & Hw & Hwpw).
  destruct (detect_loop_inv (header_values first)) as [Hfn Hpw].
  unfold detect_columns in Hdet.
  destruct (fold_left detect_step (enumerate (header_values first)) (None, None))
    as [ofn opw].
  simpl in Hfn, Hpw.
  destruct ofn as [i|]; [|exfalso; by apply (Hfn v)].
  destruct opw as [j|]; [|exfalso; by apply (Hpw w)].
  simpl in Hdet. injection Hdet as <- <- <-.
  destruct Hfn as (a & Ha & Hain & _). destruct Hpw as (b & Hb & Hbin & _).
  split; [done|]. split.
  { intros ->. rewrite Ha in Hb. injection Hb as ->.
    by apply (aliases_disjoint b). }
  split; [rewrite <- header_values_length; by eapply lookup_lt_Some|].
  split; [rewrite <- header_values_length; by eapply lookup_lt_Some|].
  split; [by exists a|by exists b].
Qed.

(** ** The mapping loader *)

Lemma same_column_loop (col : nat) (data : list row) (mapping : pydict) :
  Forall (fun e => e.1 = e.2) mapping →
  Forall (fun e => e.1 = e.2) (fold_left (load_row col col) data mapping).
Proof.
  revert mapping. induction data as [|r data IH]; intros mapping Hm; simpl; [done|].
  apply IH. rewrite load_row_entry. unfold row_entry.
  destruct (blank (cell_at r col) || blank (cell_at r col)); [done|].
  apply Forall_forall. intros e He. apply dict_set_elem in He as [->|He]; [done|].
  rewrite Forall_forall in Hm. by apply Hm.
Qed.

(** X3: when header detection settles on one and the same column for the
    filename and the password (a header whose only alias is a password alias
    in column 0, or a filename alias in column 1), the loader reads both from
    that column: every entry has its password equal to its filename. *)
Theorem same_column_entries (first : row) (rest : list row) (col : nat)
    (has_header : bool) (mapping : pydict) :
  detect_columns first = (col, col, has_header) →
  mapping_of_rows (first :: rest) = inr mapping →
  Forall (fun e => e.1 = e.2) mapping.
Proof.
  intros Hdet Hmap. unfold mapping_of_rows in Hmap. rewrite Hdet in Hmap.
  injection Hmap as <-. by apply same_column_loop.
Qed.

Lemma dict_set_keys_order (k v : str) (d : pydict) :
  dict_keys (dict_set k v d) =
  if bool_decide (k ∈ dict_keys d) then dict_keys d else dict_keys d ++ [k].
Proof.
  unfold dict_keys. induction d as [|[k0 v0] d IH].
  - cbn [dict_set map fst]. rewrite bool_decide_eq_false_2; [done|].
    apply not_elem_of_nil.
  - cbn [dict_set]. destruct (str_eqb_spec k0 k) as [->|Hne]; cbn [map fst].
    + rewrite bool_decide_eq_true_2; [done|]. apply list_elem_of_here.
    + rewrite IH. case_bool_decide as Hin.
      * rewrite bool_decide_eq_true_2; [done|]. by apply list_elem_of_further.
      * rewrite bool_decide_eq_false_2; [done|].
        intros [?|?]%elem_of_cons; [by subst|done].
Qed.

Lemma first_seen_length (seen names : list str) :
  length (first_seen seen names) <= length names.
Proof.
  revert seen. induction names as [|k names IH]; intros seen; simpl; [done|].
  case_bool_decide; [specialize (IH seen)|specialize (IH (seen ++ [k]))];
    simpl; lia.
Qed.

Lemma first_seen_elem (seen names : list str) (k : str) :
  k ∈ first_seen seen names ↔ k ∈ names ∧ k ∉ seen.
Proof.
  revert seen. induction names as [|n names IH]; intros seen; simpl.
  - split; [by intros ?%elem_of_nil|by intros [?%elem_of_nil _]].
  - case_bool_decide as Hn.
    + rewrite IH, elem_of_cons. split; [tauto|].
      intros [[->|?] ?]; [done|tauto].
    + rewrite !elem_of_cons, IH, elem_of_app, list_elem_of_singleton.
      destruct (decide (k = n)) as [->|Hne]; [tauto|]. tauto.
Qed.

Lemma declared_length (fn_col pw_col : nat) (data : list row) :
  length (declared fn_col pw_col data) <= length data.
Proof.
  induction data as [|r data IH]; simpl; [done|].
  destruct (row_entry fn_col pw_col r); simpl; lia.
Qed.

Lemma load_loop_keys (fn_col pw_col : nat) (data : list row) (mapping : pydict) :
  dict_keys (fold_left (load_row fn_col pw_col) data mapping) =
  dict_keys mapping
  ++ first_seen (dict_keys mapping) (map fst (declared fn_col pw_col data)).
Proof.
  revert mapping. induction data as [|r data IH]; intros mapping; simpl.
  - by rewrite app_nil_r.
  - rewrite IH, load_row_entry.
    destruct (row_entry fn_col pw_col r) as [[k v]|]; simpl; [|done].
    rewrite dict_set_keys_order.
    case_bool_decide; [done|]. by rewrite <- app_assoc.
Qed.

(** X4: the entries of the mapping stand in the order in which their
    filenames first occur among the data rows (a later row with a filename
    already seen changes the password, not the place); a filename is a key
    exactly when some data row declares it, and there are no more entries than
    data rows. *)
Theorem loader_key_order (first : row) (rest : list row) (fn_col pw_col : nat)
    (has_header : bool) (mapping : pydict) :
  detect_columns first = (fn_col, pw_col, has_header) →
  mapping_of_rows (first :: rest) = inr mapping →
  let data := drop (start_idx has_header) (first :: rest) in
  dict_keys mapping = first_seen [] (map fst (declared fn_col pw_col data))
  ∧ (∀ k, k ∈ dict_keys mapping ↔ k ∈ map fst (declared fn_col pw_col data))
  ∧ length mapping <= length data.
Proof.
  intros Hdet Hmap data. unfold mapping_of_rows in Hmap. rewrite Hdet in Hmap.
  injection Hmap as <-. fold data.
  assert (dict_keys (fold_left (load_row fn_col pw_col) data [])
          = first_seen [] (map fst (declared fn_col pw_col data))) as Hkeys.
  { by rewrite load_loop_keys. }
  split; [exact Hkeys|]. split.
  - intros k. rewrite Hkeys, first_seen_elem. split; [tauto|].
    intros Hk. split; [done|apply not_elem_of_nil].
  - transitivity (length (dict_keys (fold_left (load_row fn_col pw_col) data []))).
    { unfold dict_keys. by rewrite length_map. }
    rewrite Hkeys.
    etransitivity; [apply first_seen_length|].
    rewrite length_map. apply declared_length.
Qed.

(** ** Fatal exits *)

(** X5: a run that ends with status 2 has touched no file and opened no
    session with the PDF library; all it did was print one line on the error
    stream. *)
Theorem fatal_exit_touches_nothing
    (listdir : gmap str content -> str -> list str)
    (pikepdf_save : content -> str -> str -> save_outcome)
    (load_workbook : gmap str content -> str -> exn + workbook)
    (cwd : str) (args : arguments) (s s' : state) (r : result unit) :
  main listdir pikepdf_save load_workbook cwd args s = (r, s') →
  exit_status r = 2%Z →
  files s' = files s
  ∧ calls s' = calls s
  ∧ ∃ m, printed s' = printed s ++ [(Stderr, m)].
Proof.
  intros Hmain Hstatus.
  destruct (isfile (files s) (excel args)) eqn:H.
  2: { rewrite main_excel_missing in Hmain by done.
       injection Hmain as <- <-. simpl. eauto. }
  destruct (load_mapping_from_excel (load_workbook (files s)) (excel args) (sheet args))
    as [e|mapping] eqn:Hload.
  { rewrite (main_load_failed _ _ _ _ _ _ e) in Hmain by done.
    injection Hmain as <- <-. simpl. eauto. }
  destruct mapping as [|item rest].
  { rewrite main_no_records in Hmain by done.
    injection Hmain as <- <-. simpl. eauto. }
  exfalso.
  destruct (inplace args) eqn:Hin;
    [|destruct (isfile (files s) (Path.join cwd (outdir args))) eqn:Hdir].
  2: { rewrite (main_outdir_blocked _ _ _ _ _ s (item :: rest)) in Hmain by done.
       injection Hmain as <- <-. done. }
  all: destruct (for_each_returns listdir pikepdf_save cwd args
                   (Path.join cwd (outdir args)) (item :: rest) zero s)
         as (c & sb & Hrun & _);
    rewrite (main_batch _ _ _ _ _ s sb (item :: rest) c) in Hmain by auto;
    injection Hmain as <- <-; simpl in Hstatus; by destruct (failed c).
Qed.

(** ** File names *)

Lemma has_sep_basename (p : str) : Path.has_sep (Path.basename p) = false.
Proof.
  induction p as [|c p IH]; [done|].
  change (Path.basename (c :: p))
    with (if Path.has_sep (c :: p) then Path.basename p else (c :: p)).
  destruct (Path.has_sep (c :: p)) eqn:E; [exact IH|exact E].
Qed.

Lemma basename_no_sep (p : str) : Path.has_sep p = false → Path.basename p = p.
Proof.
  destruct p as [|c p]; [done|]. intros H.
  change (Path.basename (c :: p))
    with (if Path.has_sep (c :: p) then Path.basename p else (c :: p)).
  by rewrite H.
Qed.

Lemma startswith_no_sep (b : str) :
  Path.has_sep b = false → PyStr.startswith b (py "/") = false.
Proof.
  destruct b as [|c b]; [done|]. cbn [Path.has_sep]. intros H.
  apply orb_false_iff in H as [H _].
  change (PyStr.startswith (c :: b) (py "/"))
    with ((47 =? c)%N && PyStr.startswith b []).
  by rewrite N.eqb_sym, H.
Qed.

Lemma has_sep_app_sep (pre b : str) :
  Path.has_sep (pre ++ (47%N :: b)) = true.
Proof.
  induction pre as [|c pre IH]; simpl; [done|]. rewrite IH. apply orb_true_r.
Qed.

Lemma basename_app_sep (pre b : str) :
  Path.has_sep b = false → Path.basename (pre ++ (47%N :: b)) = b.
Proof.
  intros Hb. induction pre as [|c pre IH].
  - change (Path.basename ([] ++ (47%N :: b))) with (Path.basename b).
    by apply basename_no_sep.
  - change (Path.basename ((c :: pre) ++ (47%N :: b)))
      with (if Path.has_sep ((c :: (pre ++ (47%N :: b))))
            then Path.basename (pre ++ (47%N :: b))
            else (c :: (pre ++ (47%N :: b)))).
    simpl Path.has_sep. rewrite has_sep_app_sep, orb_true_r. exact IH.
Qed.

Lemma join_no_sep (a b : str) :
  Path.has_sep b = false →
  Path.join a b = b ∨ ∃ pre, Path.join a b = pre ++ (47%N :: b).
Proof.
  intros Hb. unfold Path.join. rewrite startswith_no_sep by done.
  destruct (str_eqb_spec a []) as [->|Hne]; simpl; [by left|].
  destruct (PyStr.endswith a (py "/")) eqn:E.
  - right. apply endswith_app_inv in E as [pre ->]. exists pre.
    by rewrite <- app_assoc.
  - right. by exists a.
Qed.

Lemma join_basename (a b : str) :
  Path.has_sep b = false → Path.basename (Path.join a b) = b.
Proof.
  intros Hb. destruct (join_no_sep a b Hb) as [->|[pre ->]].
  - by apply basename_no_sep.
  - by apply basename_app_sep.
Qed.

(** X6: in output-directory mode the encrypted copy carries the file name of
    the original: the last component of the output path is the last component
    of the resolved path, and holds no separator. *)
Theorem output_keeps_file_name (args : arguments) (outdir_path in_pdf : str) :
  inplace args = false →
  Path.basename (out_path_of args outdir_path in_pdf) = Path.basename in_pdf
  ∧ Path.has_sep (Path.basename in_pdf) = false.
Proof.
  intros Hin. unfold out_path_of. rewrite Hin.
  split; [|apply has_sep_basename].
  apply join_basename, has_sep_basename.
Qed.

(** ** What a run does to the files *)

Section RunFacts.

Variable listdir : gmap str content -> str -> list str.
Variable pikepdf_save : content -> str -> str -> save_outcome.
Variable cwd : str.
Variable args : arguments.
Variable outdir_path : str.

Lemma for_each_outdir_frame :
  inplace args = false →
  ∀ mapping c s, ∃ c' s',
    for_each (process_entry listdir pikepdf_save cwd args outdir_path) mapping c s
    = (Ret c', s')
    ∧ ∀ p, (∀ b, Path.has_sep b = false → p ≠ Path.join outdir_path b) →
           files s' !! p = files s !! p.
Proof.
  intros Hin. induction mapping as [|[name password] rest IH]; intros c s;
    cbn [for_each].
  - exists c, s. done.
  - unfold bind.
    destruct (step_cases listdir pikepdf_save cwd args outdir_path c name password s)
      as [[_ H]|[(path & doc & e & left & Hres & Hdoc & Hsave & H)
                |(path & doc & out & Hres & Hdoc & Hsave & H)]];
      rewrite H;
      match goal with
      | |- context [for_each _ rest ?c1 ?s1] =>
          destruct (IH c1 s1) as (c' & s' & Hrun & Hframe)
      end;
      exists c', s'; (split; [exact Hrun|]); intros p Hp;
      rewrite (Hframe p Hp); simpl.
    + done.
    + unfold out_path_of. rewrite Hin.
      destruct left; [|done]. rewrite lookup_insert_ne; [done|].
      intros Heq. by apply (Hp (Path.basename path) (has_sep_basename path)).
    + unfold out_path_of. rewrite Hin. rewrite lookup_insert_ne; [done|].
      intros Heq. by apply (Hp (Path.basename path) (has_sep_basename path)).
Qed.

Lemma for_each_keeps_files (mapping : pydict) (c : counters) (s : state) :
  ∃ c' s',
    for_each (process_entry listdir pikepdf_save cwd args outdir_path) mapping c s
    = (Ret c', s')
    ∧ ∀ p, (∀ q, p ≠ q ++ py ".tmp_encrypt") →
           is_Some (files s !! p) → is_Some (files s' !! p).
Proof.
  revert c s. induction mapping as [|[name password] rest IH]; intros c s;
    cbn [for_each].
  - exists c, s. done.
  - unfold bind.
    destruct (step_cases listdir pikepdf_save cwd args outdir_path c name password s)
      as [[_ H]|[(path & doc & e & left & Hres & Hdoc & Hsave & H)
                |(path & doc & out & Hres & Hdoc & Hsave & H)]];
      rewrite H;
      match goal with
      | |- context [for_each _ rest ?c1 ?s1] =>
          destruct (IH c1 s1) as (c' & s' & Hrun & Hkeep)
      end;
      exists c', s'; (split; [exact Hrun|]); intros p Hp Hsome;
      apply (Hkeep p Hp); simpl.
    + done.
    + destruct left as [part|]; [|done].
      destruct (decide (out_path_of args outdir_path path = p)) as [->|Hne].
      * rewrite lookup_insert_eq. eauto.
      * by rewrite lookup_insert_ne.
    + destruct (inplace args).
      * destruct (decide (path = p)) as [->|Hne].
        { rewrite lookup_insert_eq. eauto. }
        rewrite lookup_insert_ne by done.
        assert (path ++ py ".tmp_encrypt" ≠ p) as Htmp.
        { intros Heq. by apply (Hp path). }
        rewrite lookup_delete_ne by done. by rewrite lookup_insert_ne.
      * destruct (decide (out_path_of args outdir_path path = p)) as [->|Hne].
        { rewrite lookup_insert_eq. eauto. }
        by rewrite lookup_insert_ne.
Qed.

Lemma failure_line_is_stderr (path : str) (e : exn) :
  is_stderr (failure_line path e) = true.
Proof. by destruct e. Qed.

Lemma for_each_counts (mapping : pydict) (c : counters) (s : state) :
  ∃ c' s' lines new,
    for_each (process_entry listdir pikepdf_save cwd args outdir_path) mapping c s
    = (Ret c', s')
    ∧ printed s' = printed s ++ lines
    ∧ length lines = length mapping
    ∧ failed c' = failed c + length (List.filter is_stderr lines)
    ∧ calls s' = calls s ++ new
    ∧ ok c' + failed c' = ok c + failed c + length new
    ∧ skipped c' + length new = skipped c + length mapping.
Proof.
  revert c s. induction mapping as [|[name password] rest IH]; intros c s;
    cbn [for_each].
  - exists c, s, [], []. unfold ret. rewrite !app_nil_r. simpl.
    repeat split; lia.
  - unfold bind.
    destruct (step_cases listdir pikepdf_save cwd args outdir_path c name password s)
      as [[_ H]|[(path & doc & e & left & Hres & Hdoc & Hsave & H)
                |(path & doc & out & Hres & Hdoc & Hsave & H)]];
      rewrite H;
      match goal with
      | |- context [for_each _ rest ?c1 ?s1] =>
          destruct (IH c1 s1)
            as (c' & s' & lines & new & Hrun & Hprinted & Hlen & Hfailed
                & Hcalls & Hsum & Hskip)
      end;
      simpl in Hprinted, Hcalls, Hfailed, Hsum, Hskip;
      rewrite <- app_assoc in Hprinted.
    + exists c', s', ((Stdout, MsgSkip name) :: lines), new.
      split; [exact Hrun|]. split; [exact Hprinted|].
      simpl. repeat split; try done; lia.
    + rewrite <- app_assoc in Hcalls.
      exists c', s', (failure_line path e :: lines),
        (call_of args outdir_path path password :: new).
      split; [exact Hrun|]. split; [exact Hprinted|].
      simpl. rewrite failure_line_is_stderr. simpl.
      repeat split; try done; lia.
    + rewrite <- app_assoc in Hcalls.
      eexists c', s', (_ :: lines), (call_of args outdir_path path password :: new).
      split; [exact Hrun|]. split; [exact Hprinted|].
      simpl. repeat split; try done; lia.
Qed.

End RunFacts.

(** X7: a run into an output directory changes no file but those it writes
    there: every path that is not the output directory joined with a file
    name holds afterwards what it held before. *)
Theorem outdir_mode_writes_only_outdir
    (listdir : gmap str content -> str -> list str)
    (pikepdf_save : content -> str -> str -> save_outcome)
    (cwd : str) (args : arguments) (outdir_path : str) :
  inplace args = false →
  ∀ mapping s, ∃ c s',
    batch listdir pikepdf_save cwd args outdir_path mapping s = (Ret c, s')
    ∧ ∀ p, (∀ b, Path.has_sep b = false → p ≠ Path.join outdir_path b) →
           files s' !! p = files s !! p.
Proof.
  intros Hin mapping s. by apply for_each_outdir_frame.
Qed.

(** X8: no run removes a file: whatever the mode, every path that held a
    regular file before the run and is not a temporary path
    ([... .tmp_encrypt]) still holds one afterwards. *)
Theorem run_never_deletes
    (listdir : gmap str content -> str -> list str)
    (pikepdf_save : content -> str -> str -> save_outcome)
    (cwd : str) (args : arguments) (outdir_path : str)
    (mapping : pydict) (s : state) :
  ∃ c s',
    batch listdir pikepdf_save cwd args outdir_path mapping s = (Ret c, s')
    ∧ ∀ p, (∀ q, p ≠ q ++ py ".tmp_encrypt") →
           isfile (files s) p = true → isfile (files s') p = true.
Proof.
  destruct (for_each_keeps_files listdir pikepdf_save cwd args outdir_path
              mapping zero s) as (c & s' & Hrun & Hkeep).
  exists c, s'. split; [exact Hrun|]. intros p Hp Hfile.
  unfold isfile in *. apply bool_decide_eq_true_1 in Hfile.
  apply bool_decide_eq_true_2. by apply Hkeep.
Qed.

(** X9: a run prints one line per entry, and of these as many on the error
    stream as entries failed; the others, on standard output, are those of
    the entries that succeeded or were skipped. *)
Theorem output_lines_match_counters
    (listdir : gmap str content -> str -> list str)
    (pikepdf_save : content -> str -> str -> save_outcome)
    (cwd : str) (args : arguments) (outdir_path : str)
    (mapping : pydict) (s : state) :
  ∃ c s' lines,
    batch listdir pikepdf_save cwd args outdir_path mapping s = (Ret c, s')
    ∧ printed s' = printed s ++ lines
    ∧ length lines = length mapping
    ∧ length (List.filter is_stderr lines) = failed c
    ∧ length (List.filter (fun l => negb (is_stderr l)) lines) = ok c + skipped c.
Proof.
  destruct (for_each_counts listdir pikepdf_save cwd args outdir_path mapping zero s)
    as (c & s' & lines & new & Hrun & Hprinted & Hlen & Hfailed & Hcalls & Hsum
        & Hskip).
  destruct (for_each_returns listdir pikepdf_save cwd args outdir_path mapping zero s)
    as (c0 & s0 & Hrun0 & _ & Htotal).
  rewrite Hrun in Hrun0. injection Hrun0 as <- <-.
  exists c, s', lines. split; [exact Hrun|]. split; [exact Hprinted|].
  split; [exact Hlen|]. simpl in *. split; [lia|].
  pose proof (List.filter_length is_stderr lines) as Hpart. lia.
Qed.

(** X10: a run opens as many sessions with the PDF library as entries
    succeeded or failed: one for each entry that resolved, none for a skipped
    one. *)
Theorem sessions_match_counters
    (listdir : gmap str content -> str -> list str)
    (pikepdf_save : content -> str -> str -> save_outcome)
    (cwd : str) (args : arguments) (outdir_path : str)
    (mapping : pydict) (s : state) :
  ∃ c s' new,
    batch listdir pikepdf_save cwd args outdir_path mapping s = (Ret c, s')
    ∧ calls s' = calls s ++ new
    ∧ length new = ok c + failed c
    ∧ length new + skipped c = length mapping.
Proof.
  destruct (for_each_counts listdir pikepdf_save cwd args outdir_path mapping zero s)
    as (c & s' & lines & new & Hrun & Hprinted & Hlen & Hfailed & Hcalls & Hsum
        & Hskip).
  exists c, s', new. split; [exact Hrun|]. split; [exact Hcalls|].
  simpl in *. lia.
Qed.

(** ** Skipping *)

(** X11: an entry is skipped exactly when the resolver finds no file for it
    (the test [not in_pdf] never discards a path the resolver returned); a
    skipped entry touches no file, opens no session and prints its one line
    on standard output. *)
Theorem skipped_iff_unresolved
    (listdir : gmap str content -> str -> list str)
    (pikepdf_save : content -> str -> str -> save_outcome)
    (cwd : str) (args : arguments) (outdir_path : str)
    (c : counters) (name password : str) (s : state) :
  ∃ c' s',
    process_entry listdir pikepdf_save cwd args outdir_path c (name, password) s
    = (Ret c', s')
    ∧ (c' = count_skipped c ↔
       resolve_pdf_path (files s) (listdir (files s)) cwd name = None)
    ∧ (resolve_pdf_path (files s) (listdir (files s)) cwd name = None →
       files s' = files s ∧ calls s' = calls s
       ∧ printed s' = printed s ++ [(Stdout, MsgSkip name)]).
Proof.
  destruct (step_cases listdir pikepdf_save cwd args outdir_path c name password s)
    as [[Hres H]|[(path & doc & e & left & Hres & _ & _ & H)
                 |(path & doc & out & Hres & _ & _ & H)]];
    rewrite found_resolve in Hres; rewrite H; eexists _, _;
    (split; [reflexivity|]); simpl.
  - split; [by split|]. done.
  - split; [|congruence]. split; [|congruence].
    intros Heq. apply (f_equal skipped) in Heq. simpl in Heq. lia.
  - split; [|congruence]. split; [|congruence].
    intros Heq. apply (f_equal skipped) in Heq. simpl in Heq. lia.
Qed.

(** ** More on the path resolver *)

Lemma rstrip_length (s : str) :
  (length (PyStr.rstrip s) <= length s)%nat.
Proof.
  induction s as [|c s IH]; [done|].
  change (PyStr.rstrip (c :: s))
    with (match PyStr.rstrip s with
          | [] => if PyStr.is_space c then [] else [c]
          | r => (c :: r)
          end).
  destruct (PyStr.rstrip s); [destruct (PyStr.is_space c)|]; simpl in *; lia.
Qed.

Lemma lstrip_eq_of_length (s : str) :
  length (PyStr.lstrip s) = length s → PyStr.lstrip s = s.
Proof.
  destruct s as [|c s]; [done|]. simpl.
  destruct (PyStr.is_space c); [|done].
  pose proof (lstrip_length s). lia.
Qed.

Lemma strip_fixed (b : str) :
  PyStr.strip b = b → PyStr.lstrip b = b ∧ PyStr.rstrip b = b.
Proof.
  unfold PyStr.strip. intros H.
  assert (PyStr.lstrip b = b) as Hl.
  { apply lstrip_eq_of_length.
    pose proof (lstrip_length b). pose proof (rstrip_length (PyStr.lstrip b)).
    rewrite H in *. lia. }
  split; [exact Hl|]. by rewrite Hl in H.
Qed.

Lemma lstrip_app_fixed (b t : str) :
  PyStr.lstrip b = b → PyStr.lstrip t = t → PyStr.lstrip (b ++ t) = b ++ t.
Proof.
  destruct b as [|c b]; [done|]. intros Hc%lstrip_head _.
  change (PyStr.lstrip ((c :: b) ++ t))
    with (if PyStr.is_space c then PyStr.lstrip (b ++ t) else (c :: (b ++ t))).
  by rewrite Hc.
Qed.

Lemma rstrip_app_fixed (a t : str) :
  PyStr.rstrip t = t → t ≠ [] → PyStr.rstrip (a ++ t) = a ++ t.
Proof.
  intros Ht Hne. induction a as [|x a IH]; [exact Ht|].
  change (PyStr.rstrip ((x :: a) ++ t))
    with (match PyStr.rstrip (a ++ t) with
          | [] => if PyStr.is_space x then [] else [x]
          | r => (x :: r)
          end).
  rewrite IH. change ((x :: a) ++ t) with ((x :: (a ++ t))).
  destruct (a ++ t) eqn:E; [|done].
  destruct a; [by subst|discriminate].
Qed.

Section ResolverMore.

Variable files : gmap str content.
Variable listdir : str -> list str.
Variable cwd : str.

(** X12: a path the resolver returns is the working directory joined with a
    name that equals the base name of the declared filename once both are
    lowercased; the name is the base name itself or an entry of the listing;
    the path is a regular file and is not empty. *)
Theorem resolve_pdf_path_sound (name p : str) :
  resolve_pdf_path files listdir cwd name = Some p →
  ∃ x, p = Path.join cwd x
       ∧ PyStr.lower x = PyStr.lower (base_name name)
       ∧ (x = base_name name ∨ x ∈ listdir cwd)
       ∧ isfile files p = true
       ∧ p ≠ [].
Proof.
  intros Hres.
  pose proof (resolve_pdf_path_isfile _ _ _ _ _ Hres) as Hfile.
  pose proof (resolve_pdf_path_nonempty _ _ _ _ _ Hres) as Hne.
  destruct (resolve_pdf_path_name _ _ _ _ _ Hres) as (x & Hp & Hlow & Hx).
  exists x. repeat split; auto.
Qed.

(** X13: a trimmed filename without the extension and the same filename with
    [".pdf"] appended resolve alike, to the same path or both to nothing. *)
Theorem resolve_with_or_without_extension (b : str) :
  PyStr.strip b = b →
  PyStr.endswith (PyStr.lower b) (py ".pdf") = false →
  resolve_pdf_path files listdir cwd (b ++ py ".pdf")
  = resolve_pdf_path files listdir cwd b.
Proof.
  intros Hb Hext. destruct (strip_fixed b Hb) as [Hl Hr].
  assert (PyStr.strip (b ++ py ".pdf") = b ++ py ".pdf") as Hfull.
  { unfold PyStr.strip. rewrite lstrip_app_fixed by done.
    by apply rstrip_app_fixed. }
  unfold resolve_pdf_path. rewrite Hfull, Hb, Hext, endswith_lower_pdf.
  unfold resolve_base.
  by destruct (isfile files (Path.join cwd (b ++ py ".pdf"))).
Qed.

(** When the base name is no file as spelled, the resolver comes down to the
    scan of the listing. *)
Lemma resolve_pdf_path_scan (name : str) :
  isfile files (Path.join cwd (base_name name)) = false →
  resolve_pdf_path files listdir cwd name
  = scan_listing files cwd (PyStr.lower (base_name name)) (listdir cwd).
Proof.
  unfold resolve_pdf_path, resolve_base, base_name.
  destruct (PyStr.endswith (PyStr.lower (PyStr.strip name)) (py ".pdf"));
    by intros ->.
Qed.

(** X14: letter case does not matter once the exact spelling is not there:
    two declared filenames whose base names (trimmed, with the extension
    appended where it was missing) are equal when lowercased, neither of them
    a file as spelled, resolve alike.  The base names are compared, not the
    declared names: the lowercase of a name can change when the extension is
    appended to it. *)
Theorem resolve_ignores_case (n1 n2 : str) :
  PyStr.lower (base_name n1) = PyStr.lower (base_name n2) →
  isfile files (Path.join cwd (base_name n1)) = false →
  isfile files (Path.join cwd (base_name n2)) = false →
  resolve_pdf_path files listdir cwd n1 = resolve_pdf_path files listdir cwd n2.
Proof.
  intros Hlow H1 H2. by rewrite !resolve_pdf_path_scan, Hlow.
Qed.

End ResolverMore.

(** ** After a failure, and the order of the work *)

(** X15: a failed turn in place cleans nothing up: what the PDF library left
    at the temporary path is still there afterwards, and when it left nothing
    the temporary path holds what it held before. *)
Theorem failed_turn_leaves_temp
    (listdir : gmap str content -> str -> list str)
    (pikepdf_save : content -> str -> str -> save_outcome)
    (cwd : str) (args : arguments) (outdir_path : str)
    (c : counters) (name password : str) (s : state)
    (path : str) (doc : content) (e : exn) (left : option content) :
  inplace args = true →
  found (resolve_pdf_path (files s) (listdir (files s)) cwd name) = Some path →
  files s !! path = Some doc →
  pikepdf_save doc password (owner_rule (owner args) password) = SaveRaised e left →
  ∃ s',
    process_entry listdir pikepdf_save cwd args outdir_path c (name, password) s
    = (Ret (count_failed c), s')
    ∧ files s' !! (path ++ py ".tmp_encrypt")
      = match left with
        | Some part => Some part
        | None => files s !! (path ++ py ".tmp_encrypt")
        end.
Proof.
  intros Hin Hres Hdoc Hsave.
  rewrite (step_raised listdir pikepdf_save cwd args outdir_path c name password s
             path doc e left Hres Hdoc Hsave).
  eexists. split; [reflexivity|]. simpl. unfold out_path_of. rewrite Hin.
  destruct left; [by rewrite lookup_insert_eq|done].
Qed.

Lemma for_each_calls_order
    (listdir : gmap str content -> str -> list str)
    (pikepdf_save : content -> str -> str -> save_outcome)
    (cwd : str) (args : arguments) (outdir_path : str)
    (mapping : pydict) (c : counters) (s : state) :
  ∃ c' s' new,
    for_each (process_entry listdir pikepdf_save cwd args outdir_path) mapping c s
    = (Ret c', s')
    ∧ calls s' = calls s ++ new
    ∧ sublist (map call_user new) (map snd mapping).
Proof.
  revert c s. induction mapping as [|[name password] rest IH]; intros c s;
    cbn [for_each].
  - exists c, s, []. unfold ret. rewrite app_nil_r. repeat split. constructor.
  - unfold bind.
    destruct (step_cases listdir pikepdf_save cwd args outdir_path c name password s)
      as [[_ H]|[(path & doc & e & left & _ & _ & _ & H)|(path & doc & out & _ & _ & _ & H)]];
      rewrite H;
      match goal with
      | |- context [for_each _ rest ?c1 ?s1] =>
          destruct (IH c1 s1) as (c' & s' & new & Hrun & Hcalls & Hsub)
      end;
      rewrite Hrun; simpl in Hcalls.
    + exists c', s', new. repeat split; try done. simpl. by apply sublist_cons.
    + exists c', s', (call_of args outdir_path path password :: new).
      split; [done|]. split; [by rewrite Hcalls, <- app_assoc|].
      simpl. by apply sublist_skip.
    + exists c', s', (call_of args outdir_path path password :: new).
      split; [done|]. split; [by rewrite Hcalls, <- app_assoc|].
      simpl. by apply sublist_skip.
Qed.

(** X16: the entries are worked through in the order of the mapping: the user
    passwords of the sessions of a run, in the order the sessions were opened,
    are the passwords of the mapping with those of the skipped entries left
    out. *)
Theorem sessions_in_mapping_order
    (listdir : gmap str content -> str -> list str)
    (pikepdf_save : content -> str -> str -> save_outcome)
    (cwd : str) (args : arguments) (outdir_path : str)
    (mapping : pydict) (s : state) :
  ∃ c s' new,
    batch listdir pikepdf_save cwd args outdir_path mapping s = (Ret c, s')
    ∧ calls s' = calls s ++ new
    ∧ sublist (map call_user new) (map snd mapping).
Proof. apply for_each_calls_order. Qed.

(** ** Every way the loader can fail *)

Lemma find_title_present (sheets : list (str * sheet_object)) (name : str) :
  name ∈ map fst sheets → ∃ sh, find_title sheets name = Some sh.
Proof.
  induction sheets as [|[title sh] rest IH]; simpl.
  - by intros ?%elem_of_nil.
  - destruct (str_eqb_spec title name) as [->|Hne]; [by exists sh|].
    intros [?|Hin]%elem_of_cons; [by subst|]. by apply IH.
Qed.

Lemma sheets_by_kind (wb : workbook) (name : str) :
  name ∈ sheetnames wb → name ∈ map fst (worksheets wb ++ chartsheets wb).
Proof.
  unfold sheetnames, worksheets, chartsheets.
  induction (wb_sheets wb) as [|[title sh] rest IH]; simpl; [done|].
  rewrite map_app in *. setoid_rewrite elem_of_app in IH. rewrite elem_of_app.
  intros [->|Hin]%elem_of_cons.
  - destruct sh; simpl; [left|right]; apply list_elem_of_here.
  - destruct (IH Hin) as [H|H]; destruct sh; simpl; auto;
      [left|right]; by apply list_elem_of_further.
Qed.

(** [wb[name]] finds a sheet for every name of [wb.sheetnames]. *)
Lemma wb_getitem_present (wb : workbook) (name : str) :
  name ∈ sheetnames wb →
  ∃ sh, wb_getitem wb name = inr sh
        ∧ chosen_sheet wb (Some name)
          = (if PyStr.truthy name then Some sh else wb_active wb).
Proof.
  intros Hin%sheets_by_kind. unfold wb_getitem, chosen_sheet.
  destruct (find_title_present _ _ Hin) as [sh ->]. by exists sh.
Qed.

Lemma select_sheet_cases (wb : workbook) (sheet : option str) :
  (∃ name, sheet = Some name ∧ name ≠ [] ∧ (name ∉ sheetnames wb)
           ∧ select_sheet wb sheet
             = inl (ValueError (SheetNotFound name (sheetnames wb))))
  ∨ (¬ sheet_missing wb sheet
     ∧ select_sheet wb sheet = iter_rows (chosen_sheet wb sheet)).
Proof.
  unfold sheet_missing. destruct sheet as [name|]; simpl.
  - unfold PyStr.truthy. destruct (str_eqb_spec name []) as [->|Hne]; simpl.
    + right. split; [|done]. by intros (n & [= <-] & Hn & _).
    + case_bool_decide as Hin.
      * right. split; [by intros (n & [= <-] & _ & Hn)|].
        unfold wb_getitem.
        by destruct (find_title_present _ _ (sheets_by_kind wb name Hin)) as [sh ->].
      * left. by exists name.
  - right. split; [|done]. by intros (n & [=] & _).
Qed.

Lemma mapping_of_rows_loads (first : row) (rest : list row) :
  ∃ mapping, mapping_of_rows (first :: rest) = inr mapping.
Proof.
  unfold mapping_of_rows. destruct (detect_columns first) as [[fn pw] h]. eauto.
Qed.

(** X17: the loader fails in five ways and no other: the failure of the
    spreadsheet reader; a sheet name the workbook does not have; a chartsheet
    where the rows are to be read (by name or as the active sheet); no
    active sheet at all; and a worksheet without rows.  It gives a mapping
    exactly when the sheet it turns to is a worksheet with at least one row,
    whatever the rows hold (short rows, numbers, blanks). *)
Theorem loader_failures_classified (load_workbook : str -> exn + workbook)
    (excel_path : str) (sheet : option str) :
  (∀ e, load_mapping_from_excel load_workbook excel_path sheet = inl e ↔
        load_workbook excel_path = inl e
        ∨ ∃ wb, load_workbook excel_path = inr wb
            ∧ ((∃ name, sheet = Some name ∧ name ≠ [] ∧ (name ∉ sheetnames wb)
                        ∧ e = ValueError (SheetNotFound name (sheetnames wb)))
               ∨ (¬ sheet_missing wb sheet
                  ∧ chosen_sheet wb sheet = Some Chartsheet
                  ∧ e = AttributeError "Chartsheet" "iter_rows")
               ∨ (¬ sheet_missing wb sheet
                  ∧ chosen_sheet wb sheet = None
                  ∧ e = AttributeError "NoneType" "iter_rows")
               ∨ (¬ sheet_missing wb sheet
                  ∧ chosen_sheet wb sheet = Some (Worksheet [])
                  ∧ e = ValueError EmptySheet)))
  ∧ ((∃ mapping, load_mapping_from_excel load_workbook excel_path sheet = inr mapping) ↔
     ∃ wb first rest,
       load_workbook excel_path = inr wb
       ∧ ¬ sheet_missing wb sheet
       ∧ chosen_sheet wb sheet = Some (Worksheet (first :: rest)))
  ∧ (∀ wb name, name ∈ sheetnames wb → ∃ sh, wb_getitem wb name = inr sh).
Proof.
  unfold load_mapping_from_excel. split; [|split].
  - intros e. destruct (load_workbook excel_path) as [e0|wb] eqn:Hwb.
    { split; [intros [= <-]; by left|]. intros [[= ->]|(wb & [=] & _)]. done. }
    split.
    + intros Hload. right. exists wb. split; [done|].
      destruct (select_sheet_cases wb sheet)
        as [(name & -> & Hne & Hnot & Hsel)|[Hok Hsel]]; rewrite Hsel in Hload.
      * injection Hload as <-. left. by exists name.
      * right. destruct (chosen_sheet wb sheet) as [[[|first rest]|]|];
          cbn [iter_rows] in Hload.
        -- simpl in Hload. injection Hload as <-. right. right. done.
        -- by destruct (mapping_of_rows_loads first rest) as [m Hm]; rewrite Hm in Hload.
        -- injection Hload as <-. left. done.
        -- injection Hload as <-. right. left. done.
    + intros [[=]|(wb' & [= <-] & Hcase)].
      destruct (select_sheet_cases wb sheet)
        as [(name & Hsheet & Hne & Hnot & Hsel)|[Hok Hsel]]; rewrite Hsel.
      * destruct Hcase as [(name' & Hsheet' & _ & _ & ->)
                          |[(Hok & _)|[(Hok & _)|(Hok & _)]]];
          [congruence| | |]; exfalso; apply Hok; by exists name.
      * destruct Hcase as [(name & Hsheet & Hne & Hnot & _)
                          |[(_ & -> & ->)|[(_ & -> & ->)|(_ & -> & ->)]]];
          [|done|done|done].
        exfalso. apply Hok. by exists name.
  - destruct (load_workbook excel_path) as [e0|wb] eqn:Hwb.
    { split; [by intros [m [=]]|]. by intros (wb & ? & ? & [=] & _). }
    split.
    + intros [m Hload]. exists wb.
      destruct (select_sheet_cases wb sheet)
        as [(name & -> & Hne & Hnot & Hsel)|[Hok Hsel]]; rewrite Hsel in Hload;
        [done|].
      destruct (chosen_sheet wb sheet) as [[[|first rest]|]|]; try done.
      by exists first, rest.
    + intros (wb' & first & rest & [= <-] & Hok & Hchosen).
      destruct (select_sheet_cases wb sheet)
        as [(name & Hsheet & Hne & Hnot & Hsel)|[_ Hsel]].
      * exfalso. apply Hok. by exists name.
      * rewrite Hsel, Hchosen. apply mapping_of_rows_loads.
  - intros wb name Hin. destruct (wb_getitem_present wb name Hin) as (sh & ? & _).
    by exists sh.
Qed.

End Program.

(** * The program at work *)

(** From here on the character database is the excerpt [ucd_excerpt]. *)

#[local] Existing Instance ucd_excerpt.

(** ** The program on small inputs *)

Example norm_trims_and_lowers : norm (CStr (py "  FileName ")) = py "filename".
Proof. reflexivity. Qed.

(** White space beyond ASCII is trimmed too: the ideographic space U+3000
    and the no-break space U+00A0. *)
Example strip_trims_unicode_space :
  PyStr.strip (12288%N :: py "密码" ++ [12288%N]) = py "密码"
  ∧ norm (CStr (py "Pwd" ++ [160%N])) = py "pwd".
Proof. split; reflexivity. Qed.

(** The lowercase of a capital sigma depends on what stands around it. *)
Example lower_depends_on_context :
  PyStr.lower (py "ΑΣ") = py "ας"
  ∧ PyStr.lower (py "ΑΣ.pdf") = py "ασ.pdf"
  ∧ PyStr.lower (py "RÉSUMÉ.PDF") = py "résumé.pdf".
Proof. repeat split; reflexivity. Qed.

Example detect_columns_any_order :
  detect_columns [CStr (py "密码"); CNone; CStr (py " 文件名")] = (2, 0, true)
  ∧ detect_columns [CStr (py "密码" ++ [12288%N]); CStr (py "文件名 ")] = (1, 0, true)
  ∧ detect_columns [CStr (py "pwd" ++ [160%N]); CStr (py "file" ++ [160%N])]
    = (1, 0, true).
Proof. repeat split; reflexivity. Qed.

Example loader_drops_and_overwrites :
  mapping_of_rows
    [[CStr (py "a"); CStr (py "x")]; [CStr (py "b"); CStr (py " ")]; [CStr (py "c")];
     [CStr (py "d.pdf"); CStr [12288%N]]; [CStr (py " a "); CInt 7]]
  = inr [(py "a", py "7")].
Proof. reflexivity. Qed.

Example resolve_scenario :
  resolve_pdf_path scenario_files scenario_listdir (py "/w") (py "invoice")
  = Some (py "/w/INVOICE.PDF")
  ∧ resolve_pdf_path scenario_files scenario_listdir (py "/w") (py "report.pdf")
    = Some (py "/w/report.pdf")
  ∧ resolve_pdf_path scenario_files scenario_listdir (py "/w") (py "notes") = None.
Proof. repeat split; vm_compute; reflexivity. Qed.

(** Names beyond ASCII: [résumé] finds [RÉSUMÉ.PDF]; and of two names that
    are equal once lowercased, one finds the file and the other does not,
    because the extension is appended before the name is lowercased. *)
Example resolve_unicode_names :
  resolve_pdf_path unicode_files unicode_listdir (py "/w") (py "résumé" ++ [12288%N])
  = Some (py "/w/RÉSUMÉ.PDF")
  ∧ PyStr.lower (py "ΑΣ") = PyStr.lower (py "ας")
  ∧ resolve_pdf_path unicode_files unicode_listdir (py "/w") (py "ΑΣ")
    = Some (py "/w/ασ.pdf")
  ∧ resolve_pdf_path unicode_files unicode_listdir (py "/w") (py "ας") = None.
Proof. repeat split; vm_compute; reflexivity. Qed.

Example loader_meets_chartsheet :
  load_mapping_from_excel (fun _ => inr wb_chart_first) (py "p.xlsx") None
  = inl (AttributeError "Chartsheet" "iter_rows")
  ∧ load_mapping_from_excel (fun _ => inr wb_chart_first) (py "p.xlsx") (Some (py "Chart1"))
    = inl (AttributeError "Chartsheet" "iter_rows")
  ∧ load_mapping_from_excel (fun _ => inr wb_chart_first) (py "p.xlsx") (Some (py "Data"))
    = inr [(py "a", py "secret"); (py "missing", py "pw")].
Proof. repeat split; reflexivity. Qed.

(** ** The theorems at work on the small working directory *)

Lemma detect_columns_header_rule_witness :
  (∃ fn pw, detect_columns [CStr (py " PWD "); CNone; CStr (py "File")] = (fn, pw, true)
            ∧ matched_col HEADER_ALIASES_filename [py "pwd"; []; py "file"] 0 fn
            ∧ matched_col HEADER_ALIASES_password [py "pwd"; []; py "file"] 1 pw)
  ∧ detect_columns [CStr (py "a.pdf"); CStr (py "secret")] = (0, 1, false).
Proof.
  destruct (detect_columns_header_rule [CStr (py " PWD "); CNone; CStr (py "File")] [])
    as (_ & Hheader & _).
  destruct (detect_columns_header_rule [CStr (py "a.pdf"); CStr (py "secret")] [])
    as (_ & _ & Hplain).
  split.
  - destruct Hheader as (fn & pw & Hdet & Hfn & Hpw & _).
    + exists (py "pwd"). split; [compute_done|]. right. compute_done.
    + exists fn, pw. split; [exact Hdet|]. split; [exact Hfn|exact Hpw].
  - apply Hplain. apply Forall_forall. unfold is_alias. compute_done.
Defined.

Lemma loader_mapping_invariant_witness :
  load_mapping_from_excel (sample_reader sample_files) (py "/w/p.xlsx") None
  = inr [(py "a", py "secret"); (py "missing", py "pw")]
  ∧ Forall valid_entry [(py "a", py "secret"); (py "missing", py "pw")].
Proof.
  split; [reflexivity|].
  destruct (loader_mapping_invariant (sample_reader sample_files) (py "/w/p.xlsx") None
              [(py "a", py "secret"); (py "missing", py "pw")]) as (Hvalid & _);
    [reflexivity|exact Hvalid].
Defined.

Lemma loader_failures_are_ValueError_witness :
  load_mapping_from_excel (fun _ => inr wb_other_sheet) (py "p.xlsx") (Some (py "Data"))
  = inl (ValueError (SheetNotFound (py "Data") [py "Sheet1"]))
  ∧ load_mapping_from_excel (fun _ => inr wb_empty_sheet) (py "p.xlsx") None
    = inl (ValueError EmptySheet)
  ∧ load_mapping_from_excel (fun p => inl (FileNotFoundError p)) (py "p.xlsx") None
    = inl (FileNotFoundError (py "p.xlsx")).
Proof.
  destruct (loader_failures_are_ValueError (fun _ => inr wb_other_sheet) (py "p.xlsx")
              (Some (py "Data"))) as (_ & Hmissing & _).
  destruct (loader_failures_are_ValueError (fun _ => inr wb_empty_sheet) (py "p.xlsx")
              None) as (_ & _ & Hempty & _).
  destruct (loader_failures_are_ValueError (fun p => inl (FileNotFoundError p))
              (py "p.xlsx") None) as (Hreader & _).
  split; [|split].
  - apply (Hmissing wb_other_sheet (py "Data"));
      [reflexivity|reflexivity|discriminate|compute_done].
  - apply (Hempty wb_empty_sheet); reflexivity.
  - apply Hreader. reflexivity.
Defined.

(** C7 as stated does not hold: a missing sheet and an empty sheet fail with
    the same class of error, [ValueError]; there is no [NotFoundError] and no
    [FormatError]. *)
Lemma loader_error_classes_coincide :
  let missing :=
    load_mapping_from_excel (fun _ => inr wb_other_sheet) (py "p.xlsx") (Some (py "Data")) in
  let empty :=
    load_mapping_from_excel (fun _ => inr wb_empty_sheet) (py "p.xlsx") None in
  missing = inl (ValueError (SheetNotFound (py "Data") [py "Sheet1"]))
  ∧ empty = inl (ValueError EmptySheet)
  ∧ ¬ (∀ e1 e2, missing = inl e1 → empty = inl e2 →
         exn_class e1 = "NotFoundError" ∧ exn_class e2 = "FormatError"
         ∧ exn_class e1 ≠ exn_class e2).
Proof.
  split; [reflexivity|]. split; [reflexivity|].
  intros H. destruct (H _ _ eq_refl eq_refl) as (_ & _ & Hne). by apply Hne.
Qed.

Lemma inplace_original_survives_failure_witness :
  inplace sample_args = true
  ∧ (∃ doc c' s',
       files sample_state !! py "/w/a.pdf" = Some doc
       ∧ process_entry sample_listdir sample_locked (py "/w") sample_args (py "/w/protected")
           zero (py "a", py "secret") sample_state = (Ret c', s')
       ∧ files s' !! py "/w/a.pdf" = Some doc
       ∧ c' = count_failed zero)
  ∧ py "/w/a.pdf" ≠ py "/w/a.pdf" ++ py ".tmp_encrypt".
Proof.
  split; [reflexivity|].
  destruct (inplace_original_survives_failure sample_listdir sample_locked (py "/w")
              sample_args (py "/w/protected")) as (Hturn & Hfresh & _);
    [reflexivity|].
  split.
  - destruct (Hturn zero (py "a") (py "secret") sample_state (py "/w/a.pdf"))
      as (doc & c' & s' & Hdoc & Hstep & Hfail & _); [vm_compute; reflexivity|].
    exists doc, c', s'. split; [exact Hdoc|]. split; [exact Hstep|].
    apply (Hfail PasswordError (Some [Byte.x00])). reflexivity.
  - apply (Hfresh sample_files (py "a") (py "/w/a.pdf")). vm_compute; reflexivity.
Defined.

Lemma encryption_passwords_rule_witness :
  ∃ doc c' s',
    files sample_state !! py "/w/a.pdf" = Some doc
    ∧ process_entry sample_listdir sample_keyed (py "/w") sample_args_owner
        (py "/w/protected") zero (py "a", py "secret") sample_state = (Ret c', s')
    ∧ calls s' =
      [{| call_in := py "/w/a.pdf"; call_out := py "/w/a.pdf.tmp_encrypt";
          call_user := py "secret"; call_owner := py "master" |}]
    ∧ c' = count_ok zero
    ∧ files s' !! py "/w/a.pdf" = Some (Byte.xff :: doc).
Proof.
  destruct (encryption_passwords_rule sample_listdir sample_keyed (py "/w")
              sample_args_owner (py "/w/protected")) as (_ & Hstep & _).
  destruct (Hstep zero (py "a") (py "secret") sample_state (py "/w/a.pdf"))
    as (doc & c' & s' & Hdoc & Hrun & Hcalls & Hsaved & _); [vm_compute; reflexivity|].
  exists doc, c', s'. split; [exact Hdoc|]. split; [exact Hrun|].
  split; [exact Hcalls|].
  apply (Hsaved (Byte.xff :: doc)). reflexivity.
Defined.

Lemma declared_name_variants_agree_witness :
  resolve_pdf_path sample_files (sample_listdir sample_files) (py "/w") (py "a")
  = Some (Path.join (py "/w") (py "a.pdf"))
  ∧ resolve_pdf_path sample_files (sample_listdir sample_files) (py "/w") (py "A.PDF")
    = Some (Path.join (py "/w") (py "a.pdf"))
  ∧ process_entry sample_listdir sample_save (py "/w") sample_args (py "/w/protected")
      zero (py "a", py "secret") sample_state
    = process_entry sample_listdir sample_save (py "/w") sample_args (py "/w/protected")
        zero (py "A.PDF", py "secret") sample_state.
Proof.
  assert (∀ x, PyStr.lower x = PyStr.lower (PyStr.strip (py "A.PDF")) →
               isfile (files sample_state) (Path.join (py "/w") x) = true →
               x = py "a.pdf") as Hone.
  { intros x Hlow Hfile. apply bool_decide_eq_true_1 in Hfile as [d Hd].
    assert (Path.join (py "/w") x = x ∨ Path.join (py "/w") x = py "/w/" ++ x)
      as [Hj|Hj]
      by (unfold Path.join; destruct (PyStr.startswith x (py "/")); [by left|by right]);
      rewrite Hj in Hd; unfold sample_state, sample_files in Hd; cbn [files] in Hd.
    - apply lookup_insert_Some in Hd as [[<- _]|[_ Hd]];
        [vm_compute in Hlow; discriminate Hlow|].
      apply lookup_insert_Some in Hd as [[<- _]|[_ Hd]];
        [vm_compute in Hlow; discriminate Hlow|by rewrite lookup_empty in Hd].
    - apply lookup_insert_Some in Hd as [[Hx _]|[_ Hd]].
      + cbv in Hx. by simplify_eq.
      + apply lookup_insert_Some in Hd as [[Hx _]|[_ Hd]];
          [|by rewrite lookup_empty in Hd].
        cbv in Hx; simplify_eq; vm_compute in Hlow; discriminate Hlow. }
  destruct (resolve_pdf_path sample_files (sample_listdir sample_files) (py "/w") (py "a"))
    as [p1|] eqn:H1; [|vm_compute in H1; discriminate H1].
  destruct (resolve_pdf_path sample_files (sample_listdir sample_files) (py "/w")
              (py "A.PDF")) as [p2|] eqn:H2; [|vm_compute in H2; discriminate H2].
  destruct (declared_name_variants_agree sample_listdir sample_save (py "/w")
              sample_args (py "/w/protected") zero sample_state (py "a") (py "A.PDF")
              (py "secret") eq_refl eq_refl p1 p2 H1 H2) as (_ & Hpath & Hturn).
  destruct (Hpath (py "a.pdf") eq_refl Hone) as [-> ->].
  split; [reflexivity|]. split; [reflexivity|]. by apply Hturn.
Defined.

Lemma exit_status_rule_witness :
  exit_status
    (main sample_listdir sample_locked sample_reader (py "/w") sample_args sample_state).1
  = 1%Z
  ∧ exit_status
      (main sample_listdir sample_save sample_reader (py "/w") sample_args sample_state).1
    = 0%Z.
Proof.
  destruct (exit_status_rule sample_listdir sample_locked sample_reader (py "/w")
              sample_args sample_state) as (_ & _ & _ & Hlocked & _).
  destruct (exit_status_rule sample_listdir sample_save sample_reader (py "/w")
              sample_args sample_state) as (_ & _ & _ & Hsave & _).
  split.
  - destruct (Hlocked [(py "a", py "secret"); (py "missing", py "pw")])
      as (c & sb & Hrun & _ & Hone & _);
      [vm_compute; reflexivity|reflexivity|discriminate|left; reflexivity|].
    apply Hone. vm_compute in Hrun. injection Hrun as <- _. simpl. lia.
  - destruct (Hsave [(py "a", py "secret"); (py "missing", py "pw")])
      as (c & sb & Hrun & Hzero & _);
      [vm_compute; reflexivity|reflexivity|discriminate|left; reflexivity|].
    apply Hzero. vm_compute in Hrun. injection Hrun as <- _. reflexivity.
Defined.

Lemma failure_does_not_abort_witness :
  ∃ c sb code,
    batch sample_listdir sample_locked (py "/w") sample_args (py "/w/protected")
      [(py "a", py "secret"); (py "missing", py "pw")] sample_state = (Ret c, sb)
    ∧ main sample_listdir sample_locked sample_reader (py "/w") sample_args sample_state
      = (SysExit code,
         {| files := files sb; printed := printed sb ++ summary_lines c;
            calls := calls sb |}).
Proof.
  destruct (failure_does_not_abort sample_listdir sample_locked sample_reader (py "/w")
              sample_args) as (_ & _ & Hmain).
  apply (Hmain sample_state [(py "a", py "secret"); (py "missing", py "pw")]);
    [vm_compute; reflexivity|reflexivity|discriminate|left; reflexivity].
Defined.

(** ** The further properties at work *)

Lemma norm_idempotent_witness :
  norm (CStr (norm (CStr (py "  FileName ")))) = norm (CStr (py "  FileName "))
  ∧ norm (CStr (py "  FileName ")) = py "filename".
Proof.
  split; [|reflexivity].
  destruct (norm_idempotent (CStr (py "  FileName "))) as (_ & Hascii).
  apply Hascii. unfold ascii_text. compute_done.
Defined.

Lemma detect_columns_both_present_witness :
  detect_columns [CStr (py "Password"); CStr (py "note"); CStr (py " FILE ")] = (2, 0, true)
  ∧ 2 ≠ 0.
Proof.
  split; [reflexivity|].
  apply (detect_columns_both_present
           [CStr (py "Password"); CStr (py "note"); CStr (py " FILE ")] 2 0 true).
  - reflexivity.
  - exists (py "file"). split; compute_done.
  - exists (py "password"). split; compute_done.
Defined.

Lemma same_column_entries_witness :
  detect_columns [CStr (py "password")] = (0, 0, true)
  ∧ mapping_of_rows [[CStr (py "password")]; [CStr (py "a.pdf"); CStr (py "secret")]]
    = inr [(py "a.pdf", py "a.pdf")]
  ∧ Forall (fun e => e.1 = e.2) [(py "a.pdf", py "a.pdf")].
Proof.
  split; [reflexivity|]. split; [reflexivity|].
  apply (same_column_entries [CStr (py "password")] [[CStr (py "a.pdf"); CStr (py "secret")]]
           0 true); reflexivity.
Defined.

Lemma loader_key_order_witness :
  dict_keys [(py "b", py "3"); (py "a", py "2")] = [py "b"; py "a"]
  ∧ mapping_of_rows
      [[CStr (py "name"); CStr (py "pwd")]; [CStr (py "b"); CInt 1]; [CStr (py "a"); CInt 2];
       [CStr (py "b"); CInt 3]]
    = inr [(py "b", py "3"); (py "a", py "2")].
Proof.
  split; [|reflexivity].
  apply (loader_key_order [CStr (py "name"); CStr (py "pwd")]
           [[CStr (py "b"); CInt 1]; [CStr (py "a"); CInt 2]; [CStr (py "b"); CInt 3]] 0 1 true);
    reflexivity.
Defined.

Lemma fatal_exit_touches_nothing_witness :
  ∃ s', main sample_listdir sample_save (fun _ _ => inr wb_empty_sheet) (py "/w")
          sample_args sample_state = (SysExit 2, s')
        ∧ files s' = files sample_state.
Proof.
  eexists. split; [reflexivity|].
  eapply (fatal_exit_touches_nothing sample_listdir sample_save
            (fun _ _ => inr wb_empty_sheet) (py "/w") sample_args sample_state);
    reflexivity.
Defined.

Lemma output_keeps_file_name_witness :
  Path.basename (out_path_of sample_args_outdir (py "/w/protected") (py "/w/sub/INVOICE.PDF"))
  = Path.basename (py "/w/sub/INVOICE.PDF").
Proof.
  apply (output_keeps_file_name sample_args_outdir (py "/w/protected")
           (py "/w/sub/INVOICE.PDF")).
  reflexivity.
Defined.

Lemma outdir_mode_writes_only_outdir_witness :
  ∃ c s',
    batch sample_listdir sample_save (py "/w") sample_args_outdir
      (py "/w/protected") [(py "a", py "secret")] sample_state = (Ret c, s')
    ∧ files s' !! py "/w/a.pdf" = files sample_state !! py "/w/a.pdf".
Proof.
  destruct (outdir_mode_writes_only_outdir sample_listdir sample_save (py "/w")
              sample_args_outdir (py "/w/protected") eq_refl [(py "a", py "secret")]
              sample_state)
    as (c & s' & Hrun & Hframe).
  exists c, s'. split; [exact Hrun|].
  apply Hframe. intros b Hb Heq.
  destruct (join_no_sep (py "/w/protected") b Hb) as [Hj|[pre Hj]].
  - rewrite Hj in Heq. subst b. discriminate Hb.
  - unfold Path.join in Heq. rewrite startswith_no_sep in Heq by done.
    simpl in Heq. discriminate Heq.
Defined.

Lemma run_never_deletes_witness :
  ∃ c s',
    batch sample_listdir sample_save (py "/w") sample_args (py "/w/protected")
      [(py "a", py "secret"); (py "missing", py "pw")] sample_state = (Ret c, s')
    ∧ isfile (files s') (py "/w/a.pdf") = true
    ∧ isfile (files s') (py "/w/p.xlsx") = true.
Proof.
  destruct (run_never_deletes sample_listdir sample_save (py "/w") sample_args
              (py "/w/protected") [(py "a", py "secret"); (py "missing", py "pw")]
              sample_state)
    as (c & s' & Hrun & Hkeep).
  exists c, s'. split; [exact Hrun|].
  split; (apply Hkeep; [intros q Hq|reflexivity]).
  - apply (f_equal last) in Hq. rewrite last_app_nonempty in Hq by done.
    discriminate Hq.
  - apply (f_equal last) in Hq. rewrite last_app_nonempty in Hq by done.
    discriminate Hq.
Defined.

Lemma skipped_iff_unresolved_witness :
  ∃ c' s',
    process_entry sample_listdir sample_save (py "/w") sample_args (py "/w/protected")
      zero (py "missing", py "pw") sample_state = (Ret c', s')
    ∧ c' = count_skipped zero
    ∧ files s' = files sample_state.
Proof.
  destruct (skipped_iff_unresolved sample_listdir sample_save (py "/w") sample_args
              (py "/w/protected") zero (py "missing") (py "pw") sample_state)
    as (c' & s' & Hstep & Hiff & Hsame).
  exists c', s'. split; [exact Hstep|]. split.
  - apply Hiff. vm_compute; reflexivity.
  - apply Hsame. vm_compute; reflexivity.
Defined.

Lemma resolve_pdf_path_sound_witness :
  ∃ x, py "/w/INVOICE.PDF" = Path.join (py "/w") x
       ∧ PyStr.lower x = PyStr.lower (base_name (py "invoice")).
Proof.
  destruct (resolve_pdf_path_sound scenario_files scenario_listdir (py "/w")
              (py "invoice") (py "/w/INVOICE.PDF")) as (x & Hp & Hlow & _);
    [vm_compute; reflexivity|].
  exists x. split; [exact Hp|exact Hlow].
Defined.

Lemma resolve_with_or_without_extension_witness :
  PyStr.strip (py "report") = py "report"
  ∧ PyStr.endswith (PyStr.lower (py "report")) (py ".pdf") = false
  ∧ resolve_pdf_path scenario_files scenario_listdir (py "/w") (py "report" ++ py ".pdf")
    = resolve_pdf_path scenario_files scenario_listdir (py "/w") (py "report").
Proof.
  split; [reflexivity|]. split; [reflexivity|].
  apply (resolve_with_or_without_extension scenario_files scenario_listdir (py "/w")
           (py "report")); reflexivity.
Defined.

Lemma resolve_ignores_case_witness :
  resolve_pdf_path scenario_files scenario_listdir (py "/w") (py "Invoice")
  = resolve_pdf_path scenario_files scenario_listdir (py "/w") (py " invoice.PDF ").
Proof.
  apply (resolve_ignores_case scenario_files scenario_listdir (py "/w")
           (py "Invoice") (py " invoice.PDF ")); vm_compute; reflexivity.
Defined.

Lemma failed_turn_leaves_temp_witness :
  ∃ s',
    process_entry sample_listdir sample_locked (py "/w") sample_args (py "/w/protected")
      zero (py "a", py "secret") sample_state = (Ret (count_failed zero), s')
    ∧ files s' !! py "/w/a.pdf.tmp_encrypt" = Some [Byte.x00].
Proof.
  apply (failed_turn_leaves_temp sample_listdir sample_locked (py "/w") sample_args
           (py "/w/protected") zero (py "a") (py "secret") sample_state (py "/w/a.pdf")
           [Byte.x25; Byte.x50; Byte.x44; Byte.x46] PasswordError (Some [Byte.x00]));
    vm_compute; reflexivity.
Defined.

Lemma loader_failures_classified_witness :
  load_mapping_from_excel (fun _ => inr wb_chart_first) (py "p.xlsx") None
  = inl (AttributeError "Chartsheet" "iter_rows")
  ∧ ∃ mapping,
      load_mapping_from_excel (fun _ => inr wb_chart_first) (py "p.xlsx")
        (Some (py "Data")) = inr mapping.
Proof.
  destruct (loader_failures_classified (fun _ => inr wb_chart_first) (py "p.xlsx") None)
    as (Hfail & _).
  destruct (loader_failures_classified (fun _ => inr wb_chart_first) (py "p.xlsx")
              (Some (py "Data"))) as (_ & Hloads & _).
  split.
  - apply Hfail. right. exists wb_chart_first. split; [reflexivity|]. right. left.
    split; [by intros (n & [=] & _)|]. split; reflexivity.
  - apply Hloads. exists wb_chart_first. eexists _, _. split; [reflexivity|].
    split; [|reflexivity].
    intros (n & [= <-] & _ & Hn). apply Hn. compute_done.
Defined.
